(** * train_and_export.py: the training and CoreML export pipeline

    A shallow embedding of [ML/train_and_export.py].  The script is a
    sequence of filesystem tests and calls into three external libraries
    (roboflow, python-dotenv, ultralytics).  We model

    - [pathlib] paths as lists of components, with pathlib's ordering,
    - the filesystem as a finite map from paths to entries,
    - the process (filesystem, environment, the module global [EPOCHS],
      and the observable sequence of prints and library calls) as a
      [world] threaded through an exception monad,
    - the external libraries as a record of functions ([Collaborators])
      over which every statement is universally quantified. *)

From Stdlib Require Import Ascii String.
From stdpp Require Import base decidable option list sorting strings pretty gmap fin_maps.

Open Scope string_scope.
Open Scope list_scope.
Open Scope Z_scope.

(** ** Paths (pathlib.PurePosixPath) *)

(** A path is the tuple of its components, [p.parts]: normalised the way
    pathlib does it (no empty and no ["."] component), and for an absolute
    path with the root, ["/"] or ["//"], as the first component.  A
    relative path is relative to the working directory of the process;
    [Path("")] is the empty list. *)
Definition Path : Type := list string.

(** The root component of an absolute path. *)
Definition is_root (x : string) : bool := bool_decide (x = "/" ∨ x = "//").

Fixpoint join (sep : string) (l : list string) : string :=
  match l with
  | [] => ""
  | [x] => x
  | x :: l' => x +:+ sep +:+ join sep l'
  end.

(** [str(p)]: the components joined by the separator, after the root if
    there is one. *)
Definition path_str (p : Path) : string :=
  match p with
  | [] => "."
  | x :: l => if is_root x then x +:+ join "/" l else join "/" p
  end.

(** [p.name]: the last component, unless it is the root. *)
Definition name (p : Path) : string :=
  let n := List.last p "" in if is_root n then "" else n.

(** [p.parent]: the path without its last component; the root is its own
    parent. *)
Definition parent (p : Path) : Path :=
  match p with
  | [x] => if is_root x then p else []
  | _ => removelast p
  end.

(** [p / child] *)
Definition joinpath (p : Path) (child : string) : Path := p ++ [child].

(** [str.split(sep)] for a one-character separator. *)
Fixpoint split_go (c : ascii) (cur : string) (s : string) : list string :=
  match s with
  | EmptyString => [String.rev cur]
  | String a s' =>
      if decide (a = c) then String.rev cur :: split_go c "" s'
      else split_go c (String a cur) s'
  end.
Definition split (c : ascii) (s : string) : list string := split_go c "" s.

(** The root of a path string: ["//"] for exactly two leading slashes,
    ["/"] for one and for three or more, empty for a relative path. *)
Definition root_of (s : string) : string :=
  match s with
  | String "/" (String "/" (String "/" _)) => "/"
  | String "/" (String "/" _) => "//"
  | String "/" _ => "/"
  | _ => ""
  end.

(** [Path(s)]: pathlib keeps the root and drops empty and ["."]
    components. *)
Definition Path_of_string (s : string) : Path :=
  let parts := filter (λ x, x ≠ "" ∧ x ≠ ".") (split "/" s) in
  if decide (root_of s = "") then parts else root_of s :: parts.

(** [str.rfind(c)], with [None] for Python's [-1]. *)
Fixpoint rfind (c : ascii) (s : string) : option nat :=
  match s with
  | EmptyString => None
  | String a s' =>
      match rfind c s' with
      | Some i => Some (S i)
      | None => if decide (a = c) then Some 0%nat else None
      end
  end.

(** [p.suffix]: the part of the name from its last dot, when that dot is
    neither the first nor the last character. *)
Definition path_suffix (p : Path) : string :=
  let n := name p in
  match rfind "." n with
  | Some i =>
      if bool_decide (0 < i ∧ i < String.length n - 1)%nat
      then substring i (String.length n - i) n
      else ""
  | None => ""
  end.

(** ** Exceptions *)

Inductive exn :=
| ValueError (msg : string)
| FileNotFoundError (msg : string)
| NotADirectoryError (msg : string)
| IsADirectoryError (msg : string)
| OSError (msg : string)
| SystemExit (code : Z)
| LibraryError (msg : string).

Global Instance exn_eq_dec : EqDecision exn.
Proof. solve_decision. Defined.

(** [p.with_suffix(sfx)] for a well-formed [sfx] (starting with a dot):
    raises [ValueError] on a path with an empty name. *)
Definition with_suffix (p : Path) (sfx : string) : exn + Path :=
  let n := name p in
  if decide (n = "") then
    inl (ValueError ("PosixPath('" +:+ path_str p +:+ "') has an empty name"))
  else
    let old := path_suffix p in
    let n' :=
      if decide (old = "") then n +:+ sfx
      else substring 0 (String.length n - String.length old) n +:+ sfx in
    inr (parent p ++ [n']).

(** *** Ordering of paths

    [PurePath.__lt__] compares the lists of components, so [sorted] on paths
    uses Python's list comparison: the first pair of components that differ
    decides, by string comparison; a proper prefix is smaller.  Strings are
    compared by code point, which on UTF-8 encoded strings is the bytewise
    comparison [String.le]. *)
Fixpoint path_leb (p q : Path) : bool :=
  match p, q with
  | [], _ => true
  | _ :: _, [] => false
  | x :: p', y :: q' =>
      if decide (x = y) then path_leb p' q' else bool_decide (String.le x y)
  end.

Definition path_le (p q : Path) : Prop := path_leb p q.

Global Instance path_le_dec : RelDecision path_le.
Proof. intros p q. unfold path_le. apply _. Defined.

(** [sorted(l)] on paths.  Python's sort is stable; on the duplicate-free
    lists produced by [glob] every sorting algorithm gives the same list. *)
Definition sorted (l : list Path) : list Path := merge_sort path_le l.

(** ** The filesystem *)

Inductive entry :=
| File (content : string)
| Dir.

Global Instance entry_eq_dec : EqDecision entry.
Proof. solve_decision. Defined.

(** The entries that exist, keyed by the path that names them (relative to
    the working directory, or absolute).  In a filesystem every proper
    prefix of a present path is present as a [Dir]; the development does not
    need that assumption. *)
Abbreviation FS := (gmap Path entry).

(** [p.exists()] *)
Definition exists_ (fs : FS) (p : Path) : bool := bool_decide (is_Some (fs !! p)).

(** [s.startswith(pre)] *)
Fixpoint startswith (pre s : string) : bool :=
  match pre, s with
  | EmptyString, _ => true
  | String a pre', String b s' => bool_decide (a = b) && startswith pre' s'
  | String _ _, EmptyString => false
  end.

(** [p.relative_to(root)], with [None] when [p] is not below [root]. *)
Fixpoint relative_to (root p : Path) : option Path :=
  match root, p with
  | [], _ => Some p
  | x :: root', y :: p' => if decide (x = y) then relative_to root' p' else None
  | _ :: _, [] => None
  end.

(** A path matched by the pattern ["detect*/weights/<leaf>"] below [root]. *)
Definition glob_match (root : Path) (leaf : string) (p : Path) : bool :=
  match relative_to root p with
  | Some [d; w; l] =>
      startswith "detect" d && bool_decide (w = "weights") && bool_decide (l = leaf)
  | _ => false
  end.

(** [root.glob("detect*/weights/<leaf>")]: the existing paths that match, in
    the (unspecified) order in which the directory scan yields them. *)
Definition glob_detect (fs : FS) (root : Path) (leaf : string) : list Path :=
  filter (λ p, glob_match root leaf p) (map_to_list fs).*1.

(** ** Module constants *)

Definition ROBOFLOW_VERSION : Z := 18.
Definition DATA_ROOT : Path := Path_of_string ("Mahjong_detect-" +:+ pretty ROBOFLOW_VERSION).
Definition BASE_MODEL : string := "yolo11s.pt".
Definition IMGSZ : Z := 640.
Definition RUNS_DIR : Path := Path_of_string "runs/detect".
Definition COREML_OUTPUT_NAME : string := "MahjongTileDetector".

(** ** get_best_weights, as a function of the filesystem *)

Definition get_best_weights_fs (fs : FS) : exn + Path :=
  let candidates := sorted (glob_detect fs (parent RUNS_DIR) "best.pt") in
  match candidates with
  | _ :: _ => inr (List.last candidates [])
  | [] =>
      let candidates := sorted (glob_detect fs (parent RUNS_DIR) "last.pt") in
      match candidates with
      | _ :: _ => inr (List.last candidates [])
      | [] => inl (FileNotFoundError "No trained weights found. Run with --train first.")
      end
  end.

(** ** Filesystem operations *)

(** [shutil.rmtree(t)]: removes the directory [t] and everything below it;
    raises when [t] is missing or is not a directory. *)
Definition rmtree (t : Path) (fs : FS) : exn + FS :=
  match fs !! t with
  | Some Dir => inr (filter (λ kv, ¬ t `prefix_of` kv.1) fs)
  | Some (File _) => inl (NotADirectoryError (path_str t))
  | None => inl (FileNotFoundError (path_str t))
  end.

(** The entries at and below [src], re-rooted at [dst]. *)
Definition moved (src dst : Path) (fs : FS) : list (Path * entry) :=
  omap (λ kv, s ← relative_to src kv.1; Some (dst ++ s, kv.2)) (map_to_list fs).

Definition move (src dst : Path) (fs : FS) : FS :=
  list_to_map (moved src dst fs)
  ∪ filter (λ kv, ¬ src `prefix_of` kv.1 ∧ ¬ dst `prefix_of` kv.1) fs.

(** A directory with nothing below it. *)
Definition is_empty_dir (fs : FS) (p : Path) : bool :=
  bool_decide (filter (λ kv, p `prefix_of` kv.1 ∧ kv.1 ≠ p) fs = ∅).

(** [src.rename(dst)], POSIX [rename(2)]: the source must exist, the parent
    of the destination must be a directory, a directory cannot be moved
    below itself, and an existing destination is replaced only when it is a
    file (for a file) or an empty directory (for a directory). *)
Definition rename (src dst : Path) (fs : FS) : exn + FS :=
  match fs !! src with
  | None => inl (FileNotFoundError (path_str src))
  | Some e =>
      if decide (src = dst) then inr fs
      else if decide (src `prefix_of` dst) then inl (OSError "Invalid argument")
      else if decide (parent dst ≠ [] ∧ fs !! parent dst ≠ Some Dir)
      then inl (FileNotFoundError (path_str dst))
      else
        match fs !! dst, e with
        | None, _ => inr (move src dst fs)
        | Some (File _), File _ => inr (move src dst fs)
        | Some Dir, Dir =>
            if is_empty_dir fs dst then inr (move src dst fs)
            else inl (OSError "Directory not empty")
        | Some Dir, File _ => inl (IsADirectoryError (path_str dst))
        | Some (File _), Dir => inl (NotADirectoryError (path_str dst))
        end
  end.

(** ** Calls into the external libraries *)

(** Keyword arguments of [model.train(...)]. *)
Record train_args := TrainArgs {
  t_data : string;
  t_epochs : Z;
  t_imgsz : Z;
  t_batch : Z;
  t_device : string;
  t_project : string;
  t_name : string }.

(** Keyword arguments of [model.export(...)]. *)
Record export_args := ExportArgs {
  e_format : string;
  e_nms : bool;
  e_imgsz : Z }.

(** What the process does that an observer (or a mock) can see, in order. *)
Inductive event :=
| Stdout (line : string)
| Usage
| LoadDotenv
| RoboflowDownload (api_key workspace project : string) (version : Z) (fmt : string)
| YoloLoad (model : string)
| YoloTrain (model : string) (a : train_args)
| YoloExport (model : string) (a : export_args).

Global Instance train_args_eq_dec : EqDecision train_args.
Proof. solve_decision. Defined.
Global Instance export_args_eq_dec : EqDecision export_args.
Proof. solve_decision. Defined.
Global Instance event_eq_dec : EqDecision event.
Proof. solve_decision. Defined.

(** The external libraries.  Each call may raise and may change the
    filesystem; nothing else is known about them.
    - [load_dotenv]: the environment after python-dotenv has read [.env];
    - [roboflow_download key ws proj v fmt]:
      [Roboflow(api_key=key).workspace(ws).project(proj).version(v).download(fmt)];
    - [YOLO m]: loading the model [m];
    - [yolo_train m a], [yolo_export m a]: [model.train] and [model.export] with keyword
      arguments [a];
    - [cwd]: the absolute path of the working directory. *)
Record Collaborators := {
  load_dotenv : FS → gmap string string → gmap string string;
  roboflow_download : string → string → string → Z → string → FS → exn + FS;
  YOLO : string → FS → exn + FS;
  yolo_train : string → train_args → FS → exn + FS;
  yolo_export : string → export_args → FS → exn + FS;
  cwd : Path }.

(** ** The process state and its monad *)

Record world := World {
  w_fs : FS;
  environ : gmap string string;
  EPOCHS : Z;
  trace : list event }.

Definition M (A : Type) : Type := world → (exn + A) * world.

Global Instance M_ret : MRet M := λ A a w, (inr a, w).
Global Instance M_bind : MBind M := λ A B k m w,
  match m w with
  | (inr a, w') => k a w'
  | (inl e, w') => (inl e, w')
  end.
Definition raise {A} (e : exn) : M A := λ w, (inl e, w).

Definition lift {A} (r : exn + A) : M A :=
  match r with inl e => raise e | inr a => mret a end.

Definition emit (e : event) : M unit :=
  λ w, (inr tt, World (w_fs w) (environ w) (EPOCHS w) (trace w ++ [e])).

Definition print (line : string) : M unit := emit (Stdout line).

Definition get_fs : M FS := λ w, (inr (w_fs w), w).
Definition set_fs (fs : FS) : M unit :=
  λ w, (inr tt, World fs (environ w) (EPOCHS w) (trace w)).

(** A library call or filesystem operation: it raises, or updates the
    filesystem. *)
Definition call_fs (f : FS → exn + FS) : M unit :=
  fs ← get_fs; fs' ← lift (f fs); set_fs fs'.

Definition path_exists (p : Path) : M bool :=
  fs ← get_fs; mret (exists_ fs p).

Definition get_EPOCHS : M Z := λ w, (inr (EPOCHS w), w).
Definition set_EPOCHS (e : Z) : M unit :=
  λ w, (inr tt, World (w_fs w) (environ w) e (trace w)).

Definition get_environ : M (gmap string string) := λ w, (inr (environ w), w).
Definition set_environ (env : gmap string string) : M unit :=
  λ w, (inr tt, World (w_fs w) env (EPOCHS w) (trace w)).

Definition nl : string := String "010" "".

(** [str(p.absolute())] *)
Definition absolute_str (C : Collaborators) (p : Path) : string :=
  "/" +:+ join "/" (cwd C ++ p).

(** ** The script *)

Section script.
Context (C : Collaborators).

Definition download_data : M unit :=
  emit LoadDotenv;;
  fs ← get_fs;
  env ← get_environ;
  set_environ (load_dotenv C fs env);;
  env ← get_environ;
  let api_key := env !! "API_KEY" in
  match api_key with
  | None | Some "" =>
      raise (ValueError
        ("Set your Roboflow API key:" +:+ nl +:+
         "  echo 'API_KEY=your_key_here' > .env"))
  | Some api_key =>
      emit (RoboflowDownload api_key "mahjongdetect-6yabv" "mahjong_detect"
              ROBOFLOW_VERSION "yolov11");;
      call_fs (roboflow_download C api_key "mahjongdetect-6yabv" "mahjong_detect"
                 ROBOFLOW_VERSION "yolov11");;
      print ("✅  Dataset downloaded to " +:+ path_str DATA_ROOT)
  end.

Definition get_best_weights : M Path :=
  fs ← get_fs; lift (get_best_weights_fs fs).

(** Lines 75-77 of [train]: the dataset is fetched only when its root
    directory is missing. *)
Definition ensure_dataset : M unit :=
  present ← path_exists DATA_ROOT;
  if negb (present : bool) then
    print "📦  Dataset not found, downloading from Roboflow...";;
    download_data
  else mret tt.

Definition train : M unit :=
  ensure_dataset;;
  let data_yaml := joinpath DATA_ROOT "data.yaml" in
  present ← path_exists data_yaml;
  if negb (present : bool) then
    raise (FileNotFoundError ("Missing " +:+ path_str data_yaml))
  else
    emit (YoloLoad BASE_MODEL);;
    call_fs (YOLO C BASE_MODEL);;
    epochs ← get_EPOCHS;
    print ("🚀  Training " +:+ BASE_MODEL +:+ " for " +:+ pretty epochs +:+
           " epochs at imgsz=" +:+ pretty IMGSZ +:+ "...");;
    let args := {|
      t_data := absolute_str C data_yaml;
      t_epochs := epochs;
      t_imgsz := IMGSZ;
      t_batch := -1;
      t_device := "mps";
      t_project := path_str (parent RUNS_DIR);
      t_name := name RUNS_DIR |} in
    emit (YoloTrain BASE_MODEL args);;
    call_fs (yolo_train C BASE_MODEL args);;
    best ← get_best_weights;
    print ("✅  Training complete! Weights at " +:+ path_str best).

Definition export_to_coreml (weights_path : option Path) : M unit :=
  weights_path ← match weights_path with
                 | None => get_best_weights
                 | Some p => mret p
                 end;
  print ("📱  Exporting " +:+ path_str weights_path +:+ " → CoreML .mlpackage ...");;
  emit (YoloLoad (path_str weights_path));;
  call_fs (YOLO C (path_str weights_path));;
  let args := {| e_format := "coreml"; e_nms := true; e_imgsz := IMGSZ |} in
  emit (YoloExport (path_str weights_path) args);;
  call_fs (yolo_export C (path_str weights_path) args);;
  exported ← lift (with_suffix weights_path ".mlpackage");
  found ← path_exists exported;
  if found : bool then
    let target := Path_of_string (COREML_OUTPUT_NAME +:+ ".mlpackage") in
    stale ← path_exists target;
    (if stale : bool then call_fs (rmtree target) else mret tt);;
    call_fs (rename exported target);;
    print ("✅  CoreML model saved: " +:+ path_str target);;
    print "";;
    print "Next steps:";;
    print ("  1. Drag '" +:+ path_str target +:+ "' into Xcode → 'Mahjong Helper' group");;
    print "  2. Build & run — TileDetector.swift will pick it up automatically"
  else
    print ("⚠️  Expected export at " +:+ path_str exported +:+ " but not found.");;
    print "   Check the ultralytics output above for the actual path.".

(** The command line, as [argparse] sees it: [--epochs] and [--weights]
    may be absent. *)
Record Argv := {
  argv_train : bool;
  argv_export : bool;
  argv_weights : option string;
  argv_epochs : option Z }.

(** The body of [if __name__ == "__main__":]. *)
Definition main (argv : Argv) : M unit :=
  default_epochs ← get_EPOCHS;
  let args_epochs := default default_epochs (argv_epochs argv) in
  current ← get_EPOCHS;
  (if decide (args_epochs ≠ current) then set_EPOCHS args_epochs else mret tt);;
  if negb (argv_train argv) && negb (argv_export argv) then
    emit Usage;;
    print (nl +:+ "Example:");;
    print "  python train_and_export.py --train --export";;
    raise (SystemExit 0)
  else
    (if argv_train argv then train else mret tt);;
    (if argv_export argv then
       let w := match argv_weights argv with
                | Some s => if decide (s = "") then None else Some (Path_of_string s)
                | None => None
                end in
       export_to_coreml w
     else mret tt).

End script.

(** The state in which the interpreter starts the script. *)
Definition initial_world (fs : FS) (env : gmap string string) : world :=
  {| w_fs := fs; environ := env; EPOCHS := 30; trace := [] |}.

(** The exit status of the process: an uncaught exception gives 1. *)
Definition exit_status {A} (r : exn + A) : Z :=
  match r with
  | inr _ => 0
  | inl (SystemExit c) => c
  | inl _ => 1
  end.

(** ** Example filesystems and collaborators *)

Definition mkfs (l : list (Path * entry)) : FS := list_to_map l.

(** Run [detect] with a "last" checkpoint only, run [detect2] with both. *)
Definition two_runs : list (Path * entry) :=
  [ (["runs"], Dir);
    (["runs"; "detect"], Dir);
    (["runs"; "detect"; "weights"], Dir);
    (["runs"; "detect"; "weights"; "last.pt"], File "l1");
    (["runs"; "detect2"], Dir);
    (["runs"; "detect2"; "weights"], Dir);
    (["runs"; "detect2"; "weights"; "best.pt"], File "b2");
    (["runs"; "detect2"; "weights"; "last.pt"], File "l2") ].

Definition fs_two_runs : FS := mkfs two_runs.

(** Runs [detect] and [detect2], each with a "last" checkpoint only. *)
Definition fs_last_only : FS := mkfs
  [ (["runs"], Dir);
    (["runs"; "detect"], Dir);
    (["runs"; "detect"; "weights"], Dir);
    (["runs"; "detect"; "weights"; "last.pt"], File "l1");
    (["runs"; "detect2"], Dir);
    (["runs"; "detect2"; "weights"], Dir);
    (["runs"; "detect2"; "weights"; "last.pt"], File "l2") ].

(** The same, with a package from an earlier export in place. *)
Definition fs_stale : FS := mkfs
  (two_runs ++
   [ (["MahjongTileDetector.mlpackage"], Dir);
     (["MahjongTileDetector.mlpackage"; "old.bin"], File "old") ]).

(** A converter that writes the package next to the checkpoint. *)
Definition export_adjacent (m : string) (a : export_args) (fs : FS) : exn + FS :=
  match with_suffix (Path_of_string m) ".mlpackage" with
  | inr out => inr (<[out ++ ["Manifest.json"] := File "new"]> (<[out := Dir]> fs))
  | inl e => inl e
  end.

Definition mock (exp : string → export_args → FS → exn + FS) : Collaborators := {|
  load_dotenv _ env := env;
  roboflow_download _ _ _ _ _ fs :=
    inr (<[DATA_ROOT ++ ["data.yaml"] := File "names: []"]> (<[DATA_ROOT := Dir]> fs));
  YOLO _ fs := inr fs;
  yolo_train _ _ fs := inr fs;
  yolo_export := exp;
  cwd := ["home"; "u"] |}.

(** [fs_stale] after [export_adjacent] has converted the checkpoint of
    [detect2]. *)
Definition fs_converted : FS :=
  <[["runs"; "detect2"; "weights"; "best.mlpackage"; "Manifest.json"] := File "new"]>
    (<[["runs"; "detect2"; "weights"; "best.mlpackage"] := Dir]> fs_stale).

(** A converter that returns without writing anything. *)
Definition export_nothing (m : string) (a : export_args) (fs : FS) : exn + FS := inr fs.

(** Runs [detect2] and [detect10], both with a "best" checkpoint. *)
Definition fs_numbered : FS := mkfs
  [ (["runs"], Dir);
    (["runs"; "detect2"], Dir);
    (["runs"; "detect2"; "weights"], Dir);
    (["runs"; "detect2"; "weights"; "best.pt"], File "b2");
    (["runs"; "detect10"], Dir);
    (["runs"; "detect10"; "weights"], Dir);
    (["runs"; "detect10"; "weights"; "best.pt"], File "b10") ].

(** Runs [detect] and [detect-old], both with a "best" checkpoint. *)
Definition fs_dashed : FS := mkfs
  [ (["runs"], Dir);
    (["runs"; "detect"], Dir);
    (["runs"; "detect"; "weights"], Dir);
    (["runs"; "detect"; "weights"; "best.pt"], File "b");
    (["runs"; "detect-old"], Dir);
    (["runs"; "detect-old"; "weights"], Dir);
    (["runs"; "detect-old"; "weights"; "best.pt"], File "b-old") ].

(** A tree with the dataset in place and no training run. *)
Definition fs_dataset : FS := mkfs
  [ (["Mahjong_detect-18"], Dir);
    (["Mahjong_detect-18"; "data.yaml"], File "names: []") ].

(** ** Vocabulary of the statements *)

(** [p] is an existing checkpoint named [leaf] in a run directory matched
    by ["detect*"] under the runs root. *)
Definition is_checkpoint (leaf : string) (fs : FS) (p : Path) : Prop :=
  is_Some (fs !! p) ∧
  ∃ d, startswith "detect" d = true ∧ p = parent RUNS_DIR ++ [d; "weights"; leaf].

(** The canonical output path. *)
Definition target : Path := Path_of_string (COREML_OUTPUT_NAME +:+ ".mlpackage").

Definition is_fetch (e : event) : bool :=
  match e with RoboflowDownload _ _ _ _ _ => true | _ => false end.

(** The number of remote fetches in a trace. *)
Definition fetches (t : list event) : nat := length (List.filter is_fetch t).

(** Every conversion call fuses NMS and pins the input size to [IMGSZ]. *)
Definition export_call_ok (e : event) : Prop :=
  match e with
  | YoloExport _ a => e_format a = "coreml" ∧ e_nms a = true ∧ e_imgsz a = IMGSZ
  | _ => True
  end.

(** Every training call uses the image size [IMGSZ]. *)
Definition train_call_ok (e : event) : Prop :=
  match e with
  | YoloTrain _ a => t_imgsz a = IMGSZ
  | _ => True
  end.


(** The weights an export works on. *)
Definition resolve_weights (weights_path : option Path) (fs : FS) : exn + Path :=
  match weights_path with
  | None => get_best_weights_fs fs
  | Some p => inr p
  end.

(** What an export prints and calls up to and including the conversion of
    the checkpoint [p]. *)
Definition conversion_events (p : Path) : list event :=
  [ Stdout ("📱  Exporting " +:+ path_str p +:+ " → CoreML .mlpackage ...");
    YoloLoad (path_str p);
    YoloExport (path_str p) {| e_format := "coreml"; e_nms := true; e_imgsz := IMGSZ |} ].

(** The export of [weights_path] started in [w] gets through the conversion
    step: the weights resolve to [p], the model loads, the conversion
    routine returns normally and leaves the filesystem [fs_c], and the
    output is predicted at [exported]. *)
Definition converted (C : Collaborators) (weights_path : option Path) (w : world)
    (p exported : Path) (fs_c : FS) : Prop :=
  resolve_weights weights_path (w_fs w) = inr p ∧
  (∃ fs1, YOLO C (path_str p) (w_fs w) = inr fs1 ∧
          yolo_export C (path_str p)
            {| e_format := "coreml"; e_nms := true; e_imgsz := IMGSZ |} fs1 = inr fs_c) ∧
  with_suffix p ".mlpackage" = inr exported.

(** The two lines printed when the converted package is not where it is
    expected. *)
Definition missing_warning (exported : Path) : list event :=
  [ Stdout ("⚠️  Expected export at " +:+ path_str exported +:+ " but not found.");
    Stdout "   Check the ultralytics output above for the actual path." ].

(** The lines printed after the package has been put in place. *)
Definition saved_message : list event :=
  [ Stdout ("✅  CoreML model saved: " +:+ path_str target);
    Stdout "";
    Stdout "Next steps:";
    Stdout ("  1. Drag '" +:+ path_str target +:+ "' into Xcode → 'Mahjong Helper' group");
    Stdout "  2. Build & run — TileDetector.swift will pick it up automatically" ].

(** The keyword arguments [train] passes when the global [EPOCHS] is [n]. *)
Definition train_call (C : Collaborators) (n : Z) : train_args := {|
  t_data := absolute_str C (joinpath DATA_ROOT "data.yaml");
  t_epochs := n;
  t_imgsz := IMGSZ;
  t_batch := -1;
  t_device := "mps";
  t_project := "runs";
  t_name := "detect" |}.

(** What [train] prints and calls from loading the base model up to the
    training call, when the global [EPOCHS] is [n]. *)
Definition training_events (C : Collaborators) (n : Z) : list event :=
  [ YoloLoad BASE_MODEL;
    Stdout ("🚀  Training " +:+ BASE_MODEL +:+ " for " +:+ pretty n +:+
            " epochs at imgsz=" +:+ pretty IMGSZ +:+ "...");
    YoloTrain BASE_MODEL (train_call C n) ].

(** The events [train] can add to the trace when started in [w]: one kind of
    training call, no conversion, and a fetch only if the dataset root is
    missing in [w]. *)
Definition train_event_ok (C : Collaborators) (w : world) (ev : event) : Prop :=
  match ev with
  | YoloTrain m a => m = BASE_MODEL ∧ a = train_call C (EPOCHS w)
  | YoloExport _ _ => False
  | RoboflowDownload _ _ _ v _ =>
      exists_ (w_fs w) DATA_ROOT = false ∧ v = ROBOFLOW_VERSION
  | _ => True
  end.

(** The events [export_to_coreml] can add to the trace. *)
Definition export_event_ok (ev : event) : Prop :=
  match ev with
  | YoloExport _ a => a = {| e_format := "coreml"; e_nms := true; e_imgsz := IMGSZ |}
  | YoloTrain _ _ => False
  | RoboflowDownload _ _ _ _ _ => False
  | _ => True
  end.

(** The events [main] can add to the trace when the effective number of
    epochs is [n]. *)
Definition main_event_ok (C : Collaborators) (n : Z) (ev : event) : Prop :=
  match ev with
  | YoloTrain m a => m = BASE_MODEL ∧ a = train_call C n
  | YoloExport _ a => a = {| e_format := "coreml"; e_nms := true; e_imgsz := IMGSZ |}
  | _ => True
  end.

(** ** Further examples and vocabulary *)

(** The dataset and two training runs. *)
Definition fs_ready : FS := mkfs
  (two_runs ++
   [ (["Mahjong_detect-18"], Dir);
     (["Mahjong_detect-18"; "data.yaml"], File "names: []") ]).

(** The dataset directory without its manifest. *)
Definition fs_no_manifest : FS := mkfs [ (["Mahjong_detect-18"], Dir) ].

(** The state in which [main] starts the stages: the state at start-up with
    the [--epochs] override applied. *)
Definition overridden (argv : Argv) (w : world) : world :=
  World (w_fs w) (environ w) (default (EPOCHS w) (argv_epochs argv)) (trace w).

(** An event that is not a conversion call. *)
Definition not_export (ev : event) : Prop :=
  match ev with YoloExport _ _ => False | _ => True end.

(** An event that neither loads the [.env] file nor contacts the dataset
    service. *)
Definition offline (ev : event) : Prop :=
  match ev with
  | LoadDotenv | RoboflowDownload _ _ _ _ _ => False
  | _ => True
  end.

(** Two runs and a regular file where the package belongs. *)
Definition fs_target_file : FS := mkfs
  (two_runs ++ [ (["MahjongTileDetector.mlpackage"], File "not a package") ]).

(** [fs_target_file] after [export_adjacent] has converted the checkpoint of
    [detect2]. *)
Definition fs_target_file_converted : FS :=
  <[["runs"; "detect2"; "weights"; "best.mlpackage"; "Manifest.json"] := File "new"]>
    (<[["runs"; "detect2"; "weights"; "best.mlpackage"] := Dir]> fs_target_file).

(** [fs_two_runs] after [export_adjacent] has converted a checkpoint
    [MahjongTileDetector.pt] in the working directory. *)
Definition fs_self_converted : FS :=
  <[["MahjongTileDetector.mlpackage"; "Manifest.json"] := File "new"]>
    (<[["MahjongTileDetector.mlpackage"] := Dir]> fs_two_runs).

(** The events of an export of the model [m]: lines on standard output,
    loading [m] and converting [m] with the fixed arguments. *)
Definition export_only (m : string) (ev : event) : Prop :=
  match ev with
  | Stdout _ => True
  | YoloLoad m' => m' = m
  | YoloExport m' a =>
      m' = m ∧ a = {| e_format := "coreml"; e_nms := true; e_imgsz := IMGSZ |}
  | _ => False
  end.

(** Every conversion call is on the model [m]. *)
Definition exports_model (m : string) (ev : event) : Prop :=
  match ev with YoloExport m' _ => m' = m | _ => True end.

(** A path component as pathlib keeps it: not empty, not ["."], without a
    separator. *)
Definition is_component (x : string) : Prop :=
  x ≠ "" ∧ x ≠ "." ∧ rfind "/" x = None.


(** * Properties *)

(** ** The ordering of paths *)

Lemma path_leb_refl p : path_leb p p = true.
Proof. induction p as [|x p IH]; simpl; [done|]. by rewrite decide_True. Qed.

Lemma path_leb_total p q : path_leb p q = true ∨ path_leb q p = true.
Proof.
  revert q. induction p as [|x p IH]; intros [|y q]; simpl; auto.
  destruct (decide (x = y)) as [->|Hne].
  - rewrite decide_True by done. apply IH.
  - rewrite decide_False by congruence.
    destruct (total String.le x y); [left|right]; by apply bool_decide_eq_true.
Qed.

Lemma path_leb_antisym p q : path_leb p q = true → path_leb q p = true → p = q.
Proof.
  revert q. induction p as [|x p IH]; intros [|y q]; simpl; try done.
  destruct (decide (x = y)) as [->|Hne].
  - rewrite decide_True by done. intros. f_equal. by apply IH.
  - rewrite decide_False by congruence.
    intros H1%bool_decide_eq_true H2%bool_decide_eq_true.
    destruct Hne. by apply (anti_symm String.le).
Qed.

Lemma path_leb_trans p q r :
  path_leb p q = true → path_leb q r = true → path_leb p r = true.
Proof.
  revert q r. induction p as [|x p IH]; intros [|y q] [|z r]; simpl; try done.
  destruct (decide (x = y)) as [->|Hxy].
  - destruct (decide (y = z)) as [->|Hyz]; [apply IH|done].
  - intros Hle%bool_decide_eq_true.
    destruct (decide (y = z)) as [->|Hyz].
    + intros _. rewrite decide_False by done. by apply bool_decide_eq_true.
    + intros Hle'%bool_decide_eq_true.
      destruct (decide (x = z)) as [->|Hxz].
      * destruct Hxy. by apply (anti_symm String.le).
      * apply bool_decide_eq_true. by trans y.
Qed.

Global Instance path_le_po : PartialOrder path_le.
Proof.
  unfold path_le. split; [split|].
  - intros p. by rewrite path_leb_refl.
  - intros p q r ?%Is_true_true ?%Is_true_true.
    apply Is_true_true. by eapply path_leb_trans.
  - intros p q ?%Is_true_true ?%Is_true_true. by apply path_leb_antisym.
Qed.

Global Instance path_le_total : Total path_le.
Proof.
  intros p q. unfold path_le.
  destruct (path_leb_total p q) as [->| ->]; auto.
Qed.

(** ** Sorting and taking the last element *)

Lemma last_elem_of {A} (l : list A) d : l ≠ [] → List.last l d ∈ l.
Proof.
  induction l as [|x [|y l] IH]; [done|set_solver|].
  intros _. change (List.last (y :: l) d ∈ x :: y :: l).
  apply elem_of_cons. right. by apply IH.
Qed.

Lemma StronglySorted_last_max {A} (R : relation A) `{!Reflexive R} (l : list A) d x :
  StronglySorted R l → x ∈ l → R x (List.last l d).
Proof.
  induction 1 as [|y l Hs IH Hall].
  - by intros ?%elem_of_nil.
  - intros [->|Hx]%elem_of_cons.
    + destruct l as [|z l]; [done|].
      change (R y (List.last (z :: l) d)).
      rewrite Forall_forall in Hall. apply Hall, last_elem_of. done.
    + destruct l as [|z l]; [by apply elem_of_nil in Hx|].
      change (R x (List.last (z :: l) d)). by apply IH.
Qed.

Lemma sorted_elem_of l p : p ∈ sorted l ↔ p ∈ l.
Proof. unfold sorted. by rewrite merge_sort_Permutation. Qed.

Lemma sorted_nil_inv l : sorted l = [] → l = [].
Proof.
  intros Hs. apply Permutation_nil_r. rewrite <-Hs.
  unfold sorted. by rewrite merge_sort_Permutation.
Qed.

(** The element that [candidates[-1]] picks from a non-empty sorted list
    is a member that every member is below. *)
Lemma sorted_last_spec l :
  l ≠ [] →
  List.last (sorted l) [] ∈ l ∧ ∀ p, p ∈ l → path_le p (List.last (sorted l) []).
Proof.
  intros Hl. split.
  - apply sorted_elem_of, last_elem_of. by intros ?%sorted_nil_inv.
  - intros p Hp. apply StronglySorted_last_max; [apply _| |by apply sorted_elem_of].
    apply StronglySorted_merge_sort; apply _.
Qed.

(** ** Globbing for checkpoints *)

Lemma relative_to_Some root p s : relative_to root p = Some s ↔ p = root ++ s.
Proof.
  revert p. induction root as [|x root IH]; intros p; simpl.
  - split; congruence.
  - destruct p as [|y p]; [done|].
    destruct (decide (x = y)) as [->|Hne]; [rewrite IH|]; split; congruence.
Qed.

Lemma glob_match_spec root leaf p :
  glob_match root leaf p = true ↔
  ∃ d, startswith "detect" d = true ∧ p = root ++ [d; "weights"; leaf].
Proof.
  unfold glob_match. split.
  - destruct (relative_to root p) as [[|d [|w [|l [|? ?]]]]|] eqn:Hrel; try done.
    intros [[Hd Hw%bool_decide_eq_true]%andb_true_iff Hl%bool_decide_eq_true]%andb_true_iff.
    apply relative_to_Some in Hrel. subst. eauto.
  - intros (d & Hd & ->).
    rewrite (proj2 (relative_to_Some root _ [d; "weights"; leaf])) by done.
    rewrite Hd. by rewrite !bool_decide_eq_true_2.
Qed.

Lemma elem_of_glob_detect fs leaf p :
  p ∈ glob_detect fs (parent RUNS_DIR) leaf ↔ is_checkpoint leaf fs p.
Proof.
  unfold glob_detect, is_checkpoint.
  rewrite list_elem_of_filter, Is_true_true, glob_match_spec.
  rewrite list_elem_of_fmap. split.
  - intros [Hm [[k v] [-> Hin%elem_of_map_to_list]]]. simpl in *. split; eauto.
  - intros [[v Hv] Hm]. split; [done|].
    exists (p, v). split; [done|]. by apply elem_of_map_to_list.
Qed.

Lemma glob_detect_nil fs leaf :
  glob_detect fs (parent RUNS_DIR) leaf = [] ↔ ∀ p, ¬ is_checkpoint leaf fs p.
Proof.
  split.
  - intros Hnil p Hp%elem_of_glob_detect. rewrite Hnil in Hp. by apply elem_of_nil in Hp.
  - intros Hno. destruct (glob_detect _ _ _) as [|p l] eqn:Hg; [done|].
    destruct (Hno p). apply elem_of_glob_detect. rewrite Hg. by left.
Qed.

(** What [get_best_weights] answers when a tier is not empty: the greatest
    checkpoint of that tier. *)
Lemma tier_pick fs leaf :
  (∃ p, is_checkpoint leaf fs p) →
  ∃ r, sorted (glob_detect fs (parent RUNS_DIR) leaf) ≠ [] ∧
       List.last (sorted (glob_detect fs (parent RUNS_DIR) leaf)) [] = r ∧
       is_checkpoint leaf fs r ∧
       ∀ p, is_checkpoint leaf fs p → path_le p r.
Proof.
  intros [p Hp]. eexists. split; [|split; [done|]].
  - intros Hnil%sorted_nil_inv. by eapply glob_detect_nil in Hnil.
  - assert (glob_detect fs (parent RUNS_DIR) leaf ≠ []) as Hne.
    { intros Hnil. by eapply glob_detect_nil in Hnil. }
    destruct (sorted_last_spec _ Hne) as [Hin Hmax]. split.
    + by apply elem_of_glob_detect.
    + intros q Hq. by apply Hmax, elem_of_glob_detect.
Qed.

Lemma get_best_weights_fs_best fs :
  (∃ p, is_checkpoint "best.pt" fs p) →
  ∃ r, get_best_weights_fs fs = inr r ∧ is_checkpoint "best.pt" fs r ∧
       ∀ p, is_checkpoint "best.pt" fs p → path_le p r.
Proof.
  intros (r & Hne & Hr & Hck & Hmax)%tier_pick. exists r.
  unfold get_best_weights_fs.
  destruct (sorted (glob_detect fs (parent RUNS_DIR) "best.pt")); [done|].
  by rewrite Hr.
Qed.

Lemma get_best_weights_fs_last fs :
  (∀ p, ¬ is_checkpoint "best.pt" fs p) →
  (∃ p, is_checkpoint "last.pt" fs p) →
  ∃ r, get_best_weights_fs fs = inr r ∧ is_checkpoint "last.pt" fs r ∧
       ∀ p, is_checkpoint "last.pt" fs p → path_le p r.
Proof.
  intros Hno%glob_detect_nil (r & Hne & Hr & Hck & Hmax)%tier_pick. exists r.
  unfold get_best_weights_fs. rewrite Hno.
  change (sorted []) with (@nil Path).
  destruct (sorted (glob_detect fs (parent RUNS_DIR) "last.pt")); [done|].
  by rewrite Hr.
Qed.

Lemma get_best_weights_fs_none fs :
  (∀ p, ¬ is_checkpoint "best.pt" fs p) →
  (∀ p, ¬ is_checkpoint "last.pt" fs p) →
  get_best_weights_fs fs =
    inl (FileNotFoundError "No trained weights found. Run with --train first.").
Proof.
  intros Hb%glob_detect_nil Hl%glob_detect_nil.
  unfold get_best_weights_fs. by rewrite Hb, Hl.
Qed.

Lemma is_checkpoint_name leaf fs p :
  is_root leaf = false → is_checkpoint leaf fs p → name p = leaf.
Proof.
  intros Hleaf [_ (d & _ & ->)]. unfold name.
  change (List.last (parent RUNS_DIR ++ [d; "weights"; leaf]) "") with leaf.
  by rewrite Hleaf.
Qed.

Lemma get_best_weights_run w :
  get_best_weights w = (get_best_weights_fs (w_fs w), w).
Proof.
  unfold get_best_weights, mbind, M_bind, get_fs, lift. simpl.
  by destruct (get_best_weights_fs (w_fs w)).
Qed.

(** ** Run Locator *)

(** C2: when some matched run has a "best" checkpoint, [get_best_weights]
    returns the greatest "best" checkpoint in sort order and not a "last"
    one; when none has, and some run has a "last" checkpoint, it returns the
    greatest "last" checkpoint.  With runs [detect] (last only) and
    [detect2] (best and last) the answer is [runs/detect2/weights/best.pt]. *)
Theorem get_best_weights_prefers_best :
  (∀ w : world,
     (∃ p, is_checkpoint "best.pt" (w_fs w) p) →
     ∃ r, get_best_weights w = (inr r, w) ∧
          is_checkpoint "best.pt" (w_fs w) r ∧
          (∀ p, is_checkpoint "best.pt" (w_fs w) p → path_le p r) ∧
          name r ≠ "last.pt") ∧
  (∀ w : world,
     (∀ p, ¬ is_checkpoint "best.pt" (w_fs w) p) →
     (∃ p, is_checkpoint "last.pt" (w_fs w) p) →
     ∃ r, get_best_weights w = (inr r, w) ∧
          is_checkpoint "last.pt" (w_fs w) r ∧
          (∀ p, is_checkpoint "last.pt" (w_fs w) p → path_le p r)) ∧
  (get_best_weights (initial_world fs_two_runs ∅)).1 =
    inr ["runs"; "detect2"; "weights"; "best.pt"].
Proof.
  split; [|split].
  - intros w (r & Hr & Hck & Hmax)%get_best_weights_fs_best.
    exists r. rewrite get_best_weights_run, Hr.
    split; [done|]. split; [done|]. split; [done|].
    by rewrite (is_checkpoint_name "best.pt" _ _ eq_refl Hck).
  - intros w Hno (r & Hr & Hck & Hmax)%get_best_weights_fs_last; [|done].
    exists r. by rewrite get_best_weights_run, Hr.
  - by vm_compute.
Qed.

Lemma get_best_weights_prefers_best_witness :
  (∃ r, get_best_weights (initial_world fs_two_runs ∅) =
          (inr r, initial_world fs_two_runs ∅) ∧
        is_checkpoint "best.pt" fs_two_runs r ∧
        (∀ p, is_checkpoint "best.pt" fs_two_runs p → path_le p r) ∧
        name r ≠ "last.pt") ∧
  (∃ r, get_best_weights (initial_world fs_last_only ∅) =
          (inr r, initial_world fs_last_only ∅) ∧
        is_checkpoint "last.pt" fs_last_only r ∧
        (∀ p, is_checkpoint "last.pt" fs_last_only p → path_le p r)).
Proof.
  split.
  - apply (proj1 get_best_weights_prefers_best (initial_world fs_two_runs ∅)).
    exists ["runs"; "detect2"; "weights"; "best.pt"]. split.
    + vm_compute. eauto.
    + exists "detect2". split; reflexivity.
  - apply (proj1 (proj2 get_best_weights_prefers_best) (initial_world fs_last_only ∅)).
    + apply glob_detect_nil. vm_compute. reflexivity.
    + exists ["runs"; "detect"; "weights"; "last.pt"]. split.
      * vm_compute. eauto.
      * exists "detect". split; reflexivity.
Defined.

(** Two checkpoints of one tier compare as their run directory names do. *)
Lemma path_le_runs d1 d2 leaf :
  path_le (parent RUNS_DIR ++ [d1; "weights"; leaf])
          (parent RUNS_DIR ++ [d2; "weights"; leaf]) ↔ String.le d1 d2.
Proof.
  unfold path_le. change (parent RUNS_DIR) with ["runs"].
  destruct (decide (d1 = d2)) as [->|Hne].
  - rewrite path_leb_refl. done.
  - simpl. rewrite decide_False by done. apply bool_decide_spec.
Qed.

(** C10, as stated, fails: with runs [detect] and [detect-old] the answer is
    the checkpoint of [detect-old], although the full path string of the
    checkpoint of [detect] is the greater one (["/"] sorts after ["-"]). *)
Lemma full_path_order_counterexample :
  ∃ r p, (get_best_weights (initial_world fs_dashed ∅)).1 = inr r ∧
         is_checkpoint "best.pt" fs_dashed p ∧
         ¬ String.le (path_str p) (path_str r).
Proof.
  exists ["runs"; "detect-old"; "weights"; "best.pt"],
         ["runs"; "detect"; "weights"; "best.pt"].
  split; [by vm_compute|]. split.
  - split; [vm_compute; eauto|]. exists "detect". split; reflexivity.
  - by vm_compute.
Qed.

(** C10 (amended): the checkpoint that [get_best_weights] returns is a
    candidate of its tier, a "best" or a "last" checkpoint that exists in a
    matched run, and the greatest of that tier in pathlib's component-wise
    order, in which two checkpoints of a tier compare as their run
    directory names compare as strings; this is not the numeric run order:
    with runs [detect2] and [detect10] the answer is
    [runs/detect2/weights/best.pt].  Whenever a matched run holds a "best"
    or a "last" checkpoint, the function returns one and changes nothing. *)
Theorem get_best_weights_componentwise_max :
  (∀ (w : world) r,
     (get_best_weights w).1 = inr r →
     (name r = "best.pt" ∨ name r = "last.pt") ∧
     is_checkpoint (name r) (w_fs w) r ∧
     (∀ p, is_checkpoint (name r) (w_fs w) p → path_le p r) ∧
     ∃ d, r = parent RUNS_DIR ++ [d; "weights"; name r] ∧
          ∀ d', is_checkpoint (name r) (w_fs w)
                  (parent RUNS_DIR ++ [d'; "weights"; name r]) →
                String.le d' d) ∧
  (get_best_weights (initial_world fs_numbered ∅)).1 =
     inr ["runs"; "detect2"; "weights"; "best.pt"] ∧
  is_checkpoint "best.pt" fs_numbered ["runs"; "detect10"; "weights"; "best.pt"] ∧
  (∀ (w : world) leaf p,
     leaf = "best.pt" ∨ leaf = "last.pt" →
     is_checkpoint leaf (w_fs w) p →
     ∃ r, get_best_weights w = (inr r, w)).
Proof.
  split; [|split; [|split]]; cycle 3.
  { intros w leaf p Hleaf Hp. rewrite get_best_weights_run.
    destruct (glob_detect (w_fs w) (parent RUNS_DIR) "best.pt") as [|b bs] eqn:Hb.
    - pose proof (proj1 (glob_detect_nil _ _) Hb) as Hnb.
      destruct Hleaf as [-> | ->]; [by destruct (Hnb p)|].
      destruct (get_best_weights_fs_last (w_fs w) Hnb) as (r & -> & _); by eauto.
    - destruct (get_best_weights_fs_best (w_fs w)) as (r & -> & _); [|by eauto].
      exists b. apply elem_of_glob_detect. rewrite Hb. by left. }
  - intros w r. rewrite get_best_weights_run. simpl. intros Hr.
    assert (∃ leaf, (leaf = "best.pt" ∨ leaf = "last.pt") ∧
              is_checkpoint leaf (w_fs w) r ∧
              ∀ p, is_checkpoint leaf (w_fs w) p → path_le p r)
      as (leaf & Hleaf & Hck & Hmax).
    { destruct (glob_detect (w_fs w) (parent RUNS_DIR) "best.pt") as [|b bs] eqn:Hb.
      - pose proof (proj1 (glob_detect_nil _ _) Hb) as Hnb.
        destruct (glob_detect (w_fs w) (parent RUNS_DIR) "last.pt") as [|l ls] eqn:Hl.
        + pose proof (proj1 (glob_detect_nil _ _) Hl) as Hnl.
          by rewrite get_best_weights_fs_none in Hr.
        + destruct (get_best_weights_fs_last (w_fs w) Hnb) as (r' & Hr' & ?).
          { exists l. apply elem_of_glob_detect. rewrite Hl. by left. }
          exists "last.pt". split; [by right|]. by replace r with r' by congruence.
      - destruct (get_best_weights_fs_best (w_fs w)) as (r' & Hr' & ?).
        { exists b. apply elem_of_glob_detect. rewrite Hb. by left. }
        exists "best.pt". split; [by left|]. by replace r with r' by congruence. }
    assert (name r = leaf) as ->.
    { apply (is_checkpoint_name leaf (w_fs w)); [|done]. by destruct Hleaf as [-> | ->]. }
    split; [done|]. split; [done|]. split; [done|].
    destruct Hck as [Hsome (d & Hd & ->)]. exists d. split; [done|].
    intros d' Hd'. apply (proj1 (path_le_runs d' d leaf)). apply Hmax. exact Hd'.
  - by vm_compute.
  - split; [vm_compute; eauto|]. exists "detect10". split; reflexivity.
Qed.

Lemma get_best_weights_componentwise_max_witness :
  (name ["runs"; "detect2"; "weights"; "best.pt"] = "best.pt" ∨
   name ["runs"; "detect2"; "weights"; "best.pt"] = "last.pt") ∧
  is_checkpoint (name ["runs"; "detect2"; "weights"; "best.pt"]) fs_numbered
    ["runs"; "detect2"; "weights"; "best.pt"] ∧
  (∀ p, is_checkpoint (name ["runs"; "detect2"; "weights"; "best.pt"]) fs_numbered p →
        path_le p ["runs"; "detect2"; "weights"; "best.pt"]) ∧
  ∃ d, ["runs"; "detect2"; "weights"; "best.pt"] =
         parent RUNS_DIR ++ [d; "weights"; "best.pt"] ∧
       ∀ d', is_checkpoint "best.pt" fs_numbered
               (parent RUNS_DIR ++ [d'; "weights"; "best.pt"]) →
             String.le d' d.
Proof.
  apply (proj1 get_best_weights_componentwise_max (initial_world fs_numbered ∅)
           ["runs"; "detect2"; "weights"; "best.pt"]).
  vm_compute. reflexivity.
Defined.

(** ** Removing and moving directory trees *)

Lemma rmtree_lookup t fs fs' k :
  rmtree t fs = inr fs' →
  fs' !! k = if decide (t `prefix_of` k) then None else fs !! k.
Proof.
  unfold rmtree. destruct (fs !! t) as [[]|]; intros; simplify_eq.
  destruct (decide (t `prefix_of` k)) as [Hpre|Hpre].
  - apply map_lookup_filter_None. right. intros e _ Hn. by apply Hn.
  - destruct (fs !! k) as [e|] eqn:Hk.
    + by apply map_lookup_filter_Some.
    + apply map_lookup_filter_None. by left.
Qed.

Lemma rmtree_inv t fs fs' : rmtree t fs = inr fs' → fs !! t = Some Dir.
Proof. unfold rmtree. by destruct (fs !! t) as [[]|]. Qed.

Lemma NoDup_omap_inj {A B} (f : A → option B) (l : list A) :
  (∀ x y z, x ∈ l → y ∈ l → f x = Some z → f y = Some z → x = y) →
  NoDup l → NoDup (omap f l).
Proof.
  intros Hinj Hl. induction Hl as [|x l Hx Hl IH]; simpl; [constructor|].
  assert (NoDup (omap f l)) as IH'.
  { apply IH. intros a b c Ha Hb. apply Hinj; by right. }
  destruct (f x) as [z|] eqn:Hfx; [|done].
  constructor; [|done].
  intros (y & Hy & Hfy)%list_elem_of_omap.
  assert (x = y) as -> by (eapply Hinj; [by left|by right|done..]).
  done.
Qed.

Lemma moved_elem_of src dst fs k e :
  (k, e) ∈ moved src dst fs ↔ ∃ s, k = dst ++ s ∧ fs !! (src ++ s) = Some e.
Proof.
  unfold moved. rewrite list_elem_of_omap. split.
  - intros ([k' e'] & Hin%elem_of_map_to_list & Hf). simpl in Hf.
    destruct (relative_to src k') as [s|] eqn:Hrel; simplify_eq/=.
    apply relative_to_Some in Hrel as ->. eauto.
  - intros (s & -> & Hs). exists (src ++ s, e). split.
    + by apply elem_of_map_to_list.
    + simpl. by rewrite (proj2 (relative_to_Some src (src ++ s) s)).
Qed.

Lemma moved_fst src dst fs :
  (moved src dst fs).*1 =
  omap (λ k, s ← relative_to src k; Some (dst ++ s)) (map_to_list fs).*1.
Proof.
  unfold moved. induction (map_to_list fs) as [|[k e] l IH]; csimpl; [done|].
  destruct (relative_to src k); csimpl; by rewrite IH.
Qed.

Lemma moved_NoDup src dst fs : NoDup (moved src dst fs).*1.
Proof.
  rewrite moved_fst.
  apply NoDup_omap_inj; [|apply NoDup_fst_map_to_list].
  intros x y z _ _ Hx Hy.
  destruct (relative_to src x) as [sx|] eqn:Hrx; simplify_eq/=.
  destruct (relative_to src y) as [sy|] eqn:Hry; simplify_eq/=.
  apply relative_to_Some in Hrx as ->. apply relative_to_Some in Hry as ->.
  by f_equal.
Qed.

(** After a move the destination holds exactly what the source held... *)
Lemma move_lookup_dst src dst fs s :
  move src dst fs !! (dst ++ s) = fs !! (src ++ s).
Proof.
  unfold move. rewrite lookup_union_l.
  - apply option_eq. intros e.
    rewrite <-elem_of_list_to_map by apply moved_NoDup.
    rewrite moved_elem_of. split.
    + by intros (s' & ->%(inj (dst ++.)) & ?).
    + eauto.
  - apply map_lookup_filter_None. right. intros e _ [_ Hn].
    apply Hn. by apply prefix_app_r.
Qed.

(** ... the source is gone... *)
Lemma move_lookup_src src dst fs k :
  src `prefix_of` k → ¬ dst `prefix_of` k → move src dst fs !! k = None.
Proof.
  intros Hsrc Hdst. unfold move. apply lookup_union_None. split.
  - apply not_elem_of_list_to_map. intros ([k' e] & -> & Hin)%list_elem_of_fmap.
    apply moved_elem_of in Hin as (s & Hk & _). simpl in *. subst.
    apply Hdst. by apply prefix_app_r.
  - apply map_lookup_filter_None. right. intros e _ [Hn _]. by apply Hn.
Qed.

(** ... and nothing else has changed. *)
Lemma move_lookup_other src dst fs k :
  ¬ src `prefix_of` k → ¬ dst `prefix_of` k → move src dst fs !! k = fs !! k.
Proof.
  intros Hsrc Hdst. unfold move. rewrite lookup_union_r.
  - destruct (fs !! k) as [e|] eqn:Hk.
    + by apply map_lookup_filter_Some.
    + apply map_lookup_filter_None. by left.
  - apply not_elem_of_list_to_map. intros ([k' e] & -> & Hin)%list_elem_of_fmap.
    apply moved_elem_of in Hin as (s & Hk & _). simpl in *. subst.
    apply Hdst. by apply prefix_app_r.
Qed.

(** ** Running the export *)

Local Arguments path_str : simpl never.
Local Arguments Path_of_string : simpl never.
Local Arguments with_suffix : simpl never.
Local Arguments rmtree : simpl never.
Local Arguments rename : simpl never.
Local Arguments exists_ : simpl never.
Local Arguments get_best_weights_fs : simpl never.
Local Arguments absolute_str : simpl never.
Local Arguments pretty : simpl never.
Local Arguments name : simpl never.
Local Arguments parent : simpl never.
Local Arguments joinpath : simpl never.

(** Symbolic execution of a computation in [M]: unfold the monad and the
    primitives until a library call or a filesystem test is in the way. *)
Ltac run :=
  repeat (progress (unfold mbind, M_bind, mret, M_ret, raise, lift, call_fs,
                      path_exists, get_fs, set_fs, emit, print, get_EPOCHS,
                      set_EPOCHS, get_environ, set_environ, get_best_weights;
                    cbn)).

Lemma exists_Some (fs : FS) p : is_Some (fs !! p) → exists_ fs p = true.
Proof. intros. unfold exists_. by apply bool_decide_eq_true. Qed.

Lemma exists_None (fs : FS) p : fs !! p = None → exists_ fs p = false.
Proof.
  intros Hn. unfold exists_. apply bool_decide_eq_false. rewrite Hn. by intros [??].
Qed.

Lemma export_to_coreml_missing C wp w p exported fs_c :
  converted C wp w p exported fs_c →
  fs_c !! exported = None →
  export_to_coreml C wp w =
    (inr tt, World fs_c (environ w) (EPOCHS w)
               (trace w ++ conversion_events p ++ missing_warning exported)).
Proof.
  intros (Hp & (fs1 & Hload & Hconv) & Hsfx) Hmiss.
  unfold export_to_coreml.
  destruct wp as [p'|]; simpl in Hp; simplify_eq; run;
    rewrite ?Hp; run; rewrite Hload; run; rewrite Hconv; run; rewrite Hsfx; run;
    rewrite (exists_None _ _ Hmiss); run; by rewrite <-!(assoc_L (++)).
Qed.

Lemma export_to_coreml_found C wp w p exported fs_c :
  converted C wp w p exported fs_c →
  is_Some (fs_c !! exported) →
  export_to_coreml C wp w =
    let t := trace w ++ conversion_events p in
    match (if exists_ fs_c target then rmtree target fs_c else inr fs_c) with
    | inl e => (inl e, World fs_c (environ w) (EPOCHS w) t)
    | inr fs2 =>
        match rename exported target fs2 with
        | inl e => (inl e, World fs2 (environ w) (EPOCHS w) t)
        | inr fs3 => (inr tt, World fs3 (environ w) (EPOCHS w) (t ++ saved_message))
        end
    end.
Proof.
  intros (Hp & (fs1 & Hload & Hconv) & Hsfx) Hfound.
  unfold export_to_coreml. fold target.
  destruct wp as [p'|]; simpl in Hp; simplify_eq; run;
    rewrite ?Hp; run; rewrite Hload; run; rewrite Hconv; run; rewrite Hsfx; run;
    rewrite (exists_Some _ _ Hfound); run;
    (destruct (exists_ fs_c target); run;
     [destruct (rmtree target fs_c) as [e|fs2]; run;
      [by rewrite <-!(assoc_L (++))|]|];
     (destruct (rename exported target _) as [e|fs3]; run;
      by rewrite <-!(assoc_L (++)))).
Qed.

(** ** Export Orchestrator *)

(** C1, as stated, fails: with a converter that returns without writing the
    package, the export prints its warning and returns normally. *)
Lemma export_missing_output_counterexample :
  let C := mock export_nothing in
  let w := initial_world fs_two_runs ∅ in
  converted C None w ["runs"; "detect2"; "weights"; "best.pt"]
    ["runs"; "detect2"; "weights"; "best.mlpackage"] fs_two_runs ∧
  fs_two_runs !! ["runs"; "detect2"; "weights"; "best.mlpackage"] = None ∧
  (export_to_coreml C None w).1 = inr tt ∧
  ¬ (∃ e, (export_to_coreml C None w).1 = inl e).
Proof.
  assert ((export_to_coreml (mock export_nothing) None
             (initial_world fs_two_runs ∅)).1 = inr tt) as Hrun by by vm_compute.
  simpl. split; [|split; [by vm_compute|split; [done|]]].
  - split; [by vm_compute|]. split; [|by vm_compute].
    exists fs_two_runs. split; reflexivity.
  - intros [e He]. by rewrite Hrun in He.
Qed.

(** C1 (amended): when the conversion routine completes and nothing exists
    at the predicted adjacent path, the export prints a warning that names
    the expected path, looks nowhere else, leaves the filesystem as the
    conversion left it, and returns normally (exit status 0). *)
Theorem export_missing_output_warns C wp w p exported fs_c :
  converted C wp w p exported fs_c →
  fs_c !! exported = None →
  export_to_coreml C wp w =
    (inr tt, World fs_c (environ w) (EPOCHS w)
               (trace w ++ conversion_events p ++
                [ Stdout ("⚠️  Expected export at " +:+ path_str exported +:+
                         " but not found.");
                  Stdout "   Check the ultralytics output above for the actual path." ]))
  ∧ exit_status (export_to_coreml C wp w).1 = 0.
Proof.
  intros Hconv Hmiss.
  rewrite (export_to_coreml_missing _ _ _ _ _ _ Hconv Hmiss). done.
Qed.

Lemma export_missing_output_warns_witness :
  export_to_coreml (mock export_nothing) None (initial_world fs_two_runs ∅) =
    (inr tt, World fs_two_runs ∅ 30
               ([] ++ conversion_events ["runs"; "detect2"; "weights"; "best.pt"] ++
                [ Stdout ("⚠️  Expected export at " +:+
                         path_str ["runs"; "detect2"; "weights"; "best.mlpackage"] +:+
                         " but not found.");
                  Stdout "   Check the ultralytics output above for the actual path." ]))
  ∧ exit_status (export_to_coreml (mock export_nothing) None
                   (initial_world fs_two_runs ∅)).1 = 0.
Proof.
  apply (export_missing_output_warns (mock export_nothing) None
           (initial_world fs_two_runs ∅) ["runs"; "detect2"; "weights"; "best.pt"]
           ["runs"; "detect2"; "weights"; "best.mlpackage"] fs_two_runs).
  - split; [vm_compute; reflexivity|]. split; [|vm_compute; reflexivity].
    exists fs_two_runs. split; reflexivity.
  - vm_compute. reflexivity.
Defined.

(** C8: when nothing exists at the predicted adjacent path after the
    conversion, the export performs no filesystem operation of its own: the
    filesystem is the one the conversion left, so a package at the
    canonical output path that the library calls have not touched is
    exactly as it was before the export. *)
Theorem export_failure_keeps_package C wp w p exported fs_c :
  converted C wp w p exported fs_c →
  fs_c !! exported = None →
  (∀ s, fs_c !! (target ++ s) = w_fs w !! (target ++ s)) →
  w_fs (export_to_coreml C wp w).2 = fs_c ∧
  ∀ s, w_fs (export_to_coreml C wp w).2 !! (target ++ s) = w_fs w !! (target ++ s).
Proof.
  intros Hconv Hmiss Hkept.
  rewrite (export_to_coreml_missing _ _ _ _ _ _ Hconv Hmiss). simpl. done.
Qed.

Lemma export_failure_keeps_package_witness :
  w_fs (export_to_coreml (mock export_nothing) None (initial_world fs_stale ∅)).2
    = fs_stale ∧
  ∀ s, w_fs (export_to_coreml (mock export_nothing) None
               (initial_world fs_stale ∅)).2 !! (target ++ s)
       = fs_stale !! (target ++ s).
Proof.
  apply (export_failure_keeps_package (mock export_nothing) None
           (initial_world fs_stale ∅) ["runs"; "detect2"; "weights"; "best.pt"]
           ["runs"; "detect2"; "weights"; "best.mlpackage"] fs_stale).
  - split; [vm_compute; reflexivity|]. split; [|vm_compute; reflexivity].
    exists fs_stale. split; reflexivity.
  - vm_compute. reflexivity.
  - reflexivity.
Defined.

Lemma target_single : target = ["MahjongTileDetector.mlpackage"].
Proof. reflexivity. Qed.

Lemma target_not_prefix_app exported s :
  exported ≠ [] → ¬ target `prefix_of` exported → ¬ target `prefix_of` exported ++ s.
Proof.
  rewrite target_single. destruct exported as [|x xs]; [done|].
  intros _ Hn Hpre. apply Hn.
  apply prefix_cons_inv_1 in Hpre as ->. apply prefix_cons, prefix_nil.
Qed.

(** A successful rename onto a missing destination is a move. *)
Lemma rename_onto_missing src dst fs fs' :
  fs !! dst = None → rename src dst fs = inr fs' →
  fs' = move src dst fs ∧ is_Some (fs !! src) ∧ ¬ src `prefix_of` dst.
Proof.
  intros Hdst. unfold rename.
  destruct (fs !! src) as [e|] eqn:Hsrc; [|done].
  destruct (decide (src = dst)) as [->|Hne]; [congruence|].
  destruct (decide (src `prefix_of` dst)); [done|].
  destruct (decide _); [done|].
  rewrite Hdst. intros [= <-]. eauto.
Qed.

(** C3: after an export that found the converted package and returned
    normally, the canonical output path [MahjongTileDetector.mlpackage]
    (the same for every run and weights file) holds exactly the package the
    conversion produced next to the checkpoint: every entry at or below it
    is the corresponding entry of the fresh package, so nothing of an
    earlier package is left; outside it only the fresh package has gone
    from where the conversion wrote it. *)
Theorem export_leaves_one_package C wp w p exported fs_c :
  converted C wp w p exported fs_c →
  is_Some (fs_c !! exported) →
  (export_to_coreml C wp w).1 = inr tt →
  let fs' := w_fs (export_to_coreml C wp w).2 in
  target = ["MahjongTileDetector.mlpackage"] ∧
  is_Some (fs' !! target) ∧
  (∀ s, fs' !! (target ++ s) = fs_c !! (exported ++ s)) ∧
  (∀ k, ¬ target `prefix_of` k →
        fs' !! k = if decide (exported `prefix_of` k) then None else fs_c !! k).
Proof.
  intros Hconv Hfound. rewrite (export_to_coreml_found _ _ _ _ _ _ Hconv Hfound).
  cbv zeta.
  assert (∀ fs2 : FS,
    (∀ k, fs2 !! k = if decide (target `prefix_of` k) then None else fs_c !! k) →
    ∀ fs3, rename exported target fs2 = inr fs3 →
      (∀ s, fs3 !! (target ++ s) = fs_c !! (exported ++ s)) ∧
      (∀ k, ¬ target `prefix_of` k →
            fs3 !! k = if decide (exported `prefix_of` k) then None else fs_c !! k))
    as Hmove.
  { intros fs2 Hfs2 fs3 Hren.
    apply rename_onto_missing in Hren as (-> & Hsrc & Hnpre);
      [|by rewrite Hfs2, decide_True].
    rewrite Hfs2 in Hsrc.
    destruct (decide (target `prefix_of` exported)) as [|Hnt]; [by destruct Hsrc|].
    assert (exported ≠ []) as Hne by (intros ->; apply Hnpre, prefix_nil).
    split.
    - intros s. rewrite move_lookup_dst, Hfs2.
      by rewrite decide_False by by apply target_not_prefix_app.
    - intros k Hk. destruct (decide (exported `prefix_of` k)) as [Hpre|Hpre].
      + by apply move_lookup_src.
      + rewrite move_lookup_other by done. by rewrite Hfs2, decide_False. }
  assert (∀ fs3 : FS,
    (∀ s, fs3 !! (target ++ s) = fs_c !! (exported ++ s)) → is_Some (fs3 !! target))
    as Htarget.
  { intros fs3 H3. specialize (H3 []). rewrite !app_nil_r in H3.
    destruct Hfound as [e He]. exists e. etrans; [exact H3|exact He]. }
  destruct (exists_ fs_c target) eqn:Hstale.
  - destruct (rmtree target fs_c) as [e|fs2] eqn:Hrm; [done|].
    destruct (rename exported target fs2) as [e|fs3] eqn:Hren; [done|].
    intros _. simpl.
    destruct (Hmove fs2 (λ k, rmtree_lookup _ _ _ k Hrm) fs3 Hren) as [H1 H2].
    split; [done|]. split; [by apply Htarget|]. done.
  - destruct (rename exported target fs_c) as [e|fs3] eqn:Hren; [done|].
    intros _. simpl.
    apply bool_decide_eq_false in Hstale.
    assert (fs_c !! target = None) as Hnone.
    { destruct (fs_c !! target) eqn:E; [|done]. destruct Hstale. eauto. }
    apply rename_onto_missing in Hren as (-> & Hsrc & Hnpre); [|done].
    split; [done|].
    assert (∀ s, move exported target fs_c !! (target ++ s) = fs_c !! (exported ++ s))
      as H1 by (intros; apply move_lookup_dst).
    split; [by apply Htarget|]. split; [done|].
    intros k Hk. destruct (decide (exported `prefix_of` k)) as [Hpre|Hpre].
    + by apply move_lookup_src.
    + by apply move_lookup_other.
Qed.

Lemma export_leaves_one_package_witness :
  target = ["MahjongTileDetector.mlpackage"] ∧
  is_Some (w_fs (export_to_coreml (mock export_adjacent) None
                   (initial_world fs_stale ∅)).2 !! target) ∧
  (∀ s, w_fs (export_to_coreml (mock export_adjacent) None
                (initial_world fs_stale ∅)).2 !! (target ++ s)
        = fs_converted !! (["runs"; "detect2"; "weights"; "best.mlpackage"] ++ s)) ∧
  (∀ k, ¬ target `prefix_of` k →
        w_fs (export_to_coreml (mock export_adjacent) None
                (initial_world fs_stale ∅)).2 !! k
        = if decide (["runs"; "detect2"; "weights"; "best.mlpackage"] `prefix_of` k)
          then None else fs_converted !! k).
Proof.
  apply (export_leaves_one_package (mock export_adjacent) None
           (initial_world fs_stale ∅) ["runs"; "detect2"; "weights"; "best.pt"]
           ["runs"; "detect2"; "weights"; "best.mlpackage"] fs_converted).
  - split; [vm_compute; reflexivity|]. split; [|vm_compute; reflexivity].
    exists fs_stale. split; reflexivity.
  - vm_compute. eexists. reflexivity.
  - vm_compute. reflexivity.
Defined.

(** ** What the stages add to the trace *)

Ltac events :=
  rewrite <-?(assoc_L (++));
  first [ eexists; split; [reflexivity|]
        | exists []; split; [by rewrite app_nil_r|] ].

Ltac all_events :=
  repeat first [ apply Forall_nil_2 | apply Forall_cons_2; [simpl; auto|] ].

Lemma download_data_events C w :
  EPOCHS (download_data C w).2 = EPOCHS w ∧
  ∃ evs, trace (download_data C w).2 = trace w ++ evs ∧
         Forall (λ ev, match ev with
                       | YoloTrain _ _ | YoloExport _ _ => False
                       | RoboflowDownload _ _ _ v _ => v = ROBOFLOW_VERSION
                       | _ => True
                       end) evs ∧
         (fetches evs ≤ 1)%nat ∧
         ((download_data C w).1 = inr tt →
          ∃ key fs0, roboflow_download C key "mahjongdetect-6yabv" "mahjong_detect"
                       ROBOFLOW_VERSION "yolov11" fs0
                     = inr (w_fs (download_data C w).2)).
Proof.
  unfold download_data. run.
  destruct (load_dotenv C (w_fs w) (environ w) !! "API_KEY") as [[|c key]|] eqn:Hkey;
    run.
  - split; [done|]. events. split; [all_events|]. split; [cbn; lia|done].
  - destruct (roboflow_download C _ _ _ _ _ (w_fs w)) as [e|fs'] eqn:Hdl; run.
    + split; [done|]. events. split; [all_events|]. split; [cbn; lia|done].
    + split; [done|]. events. split; [all_events|]. split; [cbn; lia|]. eauto.
  - split; [done|]. events. split; [all_events|]. split; [cbn; lia|done].
Qed.

Local Arguments download_data : simpl never.
Local Arguments ensure_dataset : simpl never.
Local Arguments train : simpl never.
Local Arguments export_to_coreml : simpl never.

Lemma ensure_dataset_present C w :
  exists_ (w_fs w) DATA_ROOT = true → ensure_dataset C w = (inr tt, w).
Proof. intros Hroot. unfold ensure_dataset. run. by rewrite Hroot. Qed.

Lemma ensure_dataset_events C w :
  EPOCHS (ensure_dataset C w).2 = EPOCHS w ∧
  ∃ evs, trace (ensure_dataset C w).2 = trace w ++ evs ∧
         Forall (train_event_ok C w) evs ∧
         (fetches evs ≤ 1)%nat ∧
         ((ensure_dataset C w).1 = inr tt →
          exists_ (w_fs w) DATA_ROOT = false →
          ∃ key fs0, roboflow_download C key "mahjongdetect-6yabv" "mahjong_detect"
                       ROBOFLOW_VERSION "yolov11" fs0
                     = inr (w_fs (ensure_dataset C w).2)).
Proof.
  destruct (exists_ (w_fs w) DATA_ROOT) eqn:Hroot.
  - rewrite ensure_dataset_present by done. split; [done|].
    exists []. rewrite app_nil_r. repeat split; [constructor|cbn; lia|done].
  - unfold ensure_dataset. run. rewrite Hroot. run.
    set (w1 := World _ _ _ _).
    destruct (download_data_events C w1) as (HE & evs & Ht & Hall & Hn & Hfs).
    destruct (download_data C w1) as [[e|[]] w2]; simpl in *.
    + split; [done|]. exists (Stdout "📦  Dataset not found, downloading from Roboflow..." :: evs).
      rewrite Ht. subst w1. simpl. rewrite <-(assoc_L (++)). split; [done|].
      split; [|split; [done|done]].
      constructor; [done|]. eapply Forall_impl; [exact Hall|].
      intros [] ?; simpl in *; by auto.
    + split; [done|]. exists (Stdout "📦  Dataset not found, downloading from Roboflow..." :: evs).
      rewrite Ht. subst w1. simpl. rewrite <-(assoc_L (++)). split; [done|].
      split; [|split; [done|auto]].
      constructor; [done|]. eapply Forall_impl; [exact Hall|].
      intros [] ?; simpl in *; by auto.
Qed.

Lemma train_events C w :
  EPOCHS (train C w).2 = EPOCHS w ∧
  ∃ evs, trace (train C w).2 = trace w ++ evs ∧ Forall (train_event_ok C w) evs.
Proof.
  unfold train. run.
  destruct (ensure_dataset_events C w) as (HE & evs & Ht & Hall & _).
  destruct (ensure_dataset C w) as [[e|[]] w1]; simpl in *.
  { split; [done|]. eauto. }
  assert (∀ more, Forall (train_event_ok C w) more →
            ∃ evs', trace w1 ++ more = trace w ++ evs' ∧
                    Forall (train_event_ok C w) evs') as Hmore.
  { intros more Hm. exists (evs ++ more). rewrite Ht, <-(assoc_L (++)).
    split; [done|]. by apply Forall_app_2. }
  repeat (case_match; simplify_eq/=; run); (split; [done|]);
    rewrite <-?(assoc_L (++));
    (first [apply Hmore | rewrite <-(app_nil_r (trace w1)); apply Hmore]);
    all_events.
  all: split; [done|]; by rewrite HE.
Qed.

Lemma export_to_coreml_events C wp w :
  EPOCHS (export_to_coreml C wp w).2 = EPOCHS w ∧
  ∃ evs, trace (export_to_coreml C wp w).2 = trace w ++ evs ∧
         Forall export_event_ok evs.
Proof.
  unfold export_to_coreml.
  destruct wp as [p|]; run;
    repeat (case_match; simplify_eq/=; run); (split; [done|]); events; all_events.
Qed.

(** [main] applies the override and then dispatches on the flags. *)
Lemma main_run C argv w :
  let w1 := World (w_fs w) (environ w) (default (EPOCHS w) (argv_epochs argv)) (trace w) in
  main C argv w =
    if negb (argv_train argv) && negb (argv_export argv)
    then (inl (SystemExit 0),
          World (w_fs w1) (environ w1) (EPOCHS w1)
            (trace w1 ++ [Usage; Stdout (nl +:+ "Example:");
                          Stdout "  python train_and_export.py --train --export"]))
    else ((if argv_train argv then train C else mret tt) ≫= λ _,
          if argv_export argv then
            export_to_coreml C
              match argv_weights argv with
              | Some s => if decide (s = "") then None else Some (Path_of_string s)
              | None => None
              end
          else mret tt) w1.
Proof.
  unfold main. run. set (n := default (EPOCHS w) (argv_epochs argv)).
  destruct (decide (n ≠ EPOCHS w)) as [Hne|Heq%dec_stable]; run.
  - destruct (negb _ && negb _); run; [by rewrite <-!(assoc_L (++))|done].
  - rewrite Heq. destruct w as [fs env E t]; simpl.
    destruct (negb _ && negb _); run; [by rewrite <-!(assoc_L (++))|done].
Qed.

Lemma main_events C argv w :
  ∃ evs, trace (main C argv w).2 = trace w ++ evs ∧
         Forall (main_event_ok C (default (EPOCHS w) (argv_epochs argv))) evs.
Proof.
  rewrite main_run. cbv zeta.
  set (n := default (EPOCHS w) (argv_epochs argv)).
  set (w1 := World (w_fs w) (environ w) n (trace w)).
  change (trace w) with (trace w1).
  destruct (negb _ && negb _); simpl.
  { events. all_events. }
  assert (∃ r w2 evs, (if argv_train argv then train C else mret tt) w1 = (r, w2) ∧
            trace w2 = trace w1 ++ evs ∧ Forall (main_event_ok C n) evs)
    as (r & w2 & evs & Hrun & Ht2 & Hall).
  { destruct (argv_train argv).
    - destruct (train_events C w1) as (_ & evs & Ht1 & Hall).
      destruct (train C w1) as [r w2]. exists r, w2, evs. split; [done|].
      split; [done|]. eapply Forall_impl; [exact Hall|].
      by intros [] ?.
    - exists (inr tt), w1, []. by rewrite app_nil_r. }
  unfold mbind, M_bind. rewrite Hrun. destruct r as [e|[]]; [by eauto|].
  destruct (argv_export argv); run; [|by eauto].
  match goal with |- context [export_to_coreml C ?wp w2] =>
    destruct (export_to_coreml_events C wp w2) as (_ & evs' & Ht' & Hall') end.
  exists (evs ++ evs'). rewrite Ht', Ht2, <-(assoc_L (++)). split; [done|].
  apply Forall_app_2; [done|]. eapply Forall_impl; [exact Hall'|].
  by intros [] ?.
Qed.

(** C6: when no matched run holds a "best" or a "last" checkpoint,
    [get_best_weights] raises [FileNotFoundError] with a message that tells
    the caller to train first; an export without an explicit weights path
    then ends with that uncaught error, and so does the process (exit
    status 1). *)
Theorem no_weights_is_fatal C w :
  (∀ p, ¬ is_checkpoint "best.pt" (w_fs w) p) →
  (∀ p, ¬ is_checkpoint "last.pt" (w_fs w) p) →
  get_best_weights w =
    (inl (FileNotFoundError "No trained weights found. Run with --train first."), w) ∧
  export_to_coreml C None w =
    (inl (FileNotFoundError "No trained weights found. Run with --train first."), w) ∧
  ∀ argv, argv_train argv = false → argv_export argv = true →
          (argv_weights argv = None ∨ argv_weights argv = Some "") →
          (main C argv w).1 =
            inl (FileNotFoundError "No trained weights found. Run with --train first.") ∧
          exit_status (main C argv w).1 = 1.
Proof.
  intros Hb Hl.
  pose proof (get_best_weights_fs_none _ Hb Hl) as Hnone.
  assert (∀ w', w_fs w' = w_fs w →
            export_to_coreml C None w' =
              (inl (FileNotFoundError "No trained weights found. Run with --train first."), w'))
    as Hexp.
  { intros w' Hfs. unfold export_to_coreml. run. by rewrite Hfs, Hnone. }
  split; [by rewrite get_best_weights_run, Hnone|]. split; [by apply Hexp|].
  intros argv Htrain Hexport Hweights.
  rewrite main_run. cbv zeta. rewrite Htrain, Hexport. simpl.
  unfold mbind, M_bind, mret, M_ret.
  destruct Hweights as [-> | ->]; simpl; by rewrite Hexp.
Qed.

Lemma no_weights_is_fatal_witness :
  get_best_weights (initial_world fs_dataset ∅) =
    (inl (FileNotFoundError "No trained weights found. Run with --train first."),
     initial_world fs_dataset ∅) ∧
  export_to_coreml (mock export_adjacent) None (initial_world fs_dataset ∅) =
    (inl (FileNotFoundError "No trained weights found. Run with --train first."),
     initial_world fs_dataset ∅) ∧
  ∀ argv, argv_train argv = false → argv_export argv = true →
          (argv_weights argv = None ∨ argv_weights argv = Some "") →
          (main (mock export_adjacent) argv (initial_world fs_dataset ∅)).1 =
            inl (FileNotFoundError "No trained weights found. Run with --train first.") ∧
          exit_status (main (mock export_adjacent) argv (initial_world fs_dataset ∅)).1 = 1.
Proof.
  apply (no_weights_is_fatal (mock export_adjacent) (initial_world fs_dataset ∅)).
  - apply glob_detect_nil. vm_compute. reflexivity.
  - apply glob_detect_nil. vm_compute. reflexivity.
Defined.

(** ** Dataset Provider *)

Lemma download_data_no_key C w :
  (load_dotenv C (w_fs w) (environ w) !! "API_KEY" = None ∨
   load_dotenv C (w_fs w) (environ w) !! "API_KEY" = Some "") →
  download_data C w =
    (inl (ValueError ("Set your Roboflow API key:" +:+ nl +:+
                      "  echo 'API_KEY=your_key_here' > .env")),
     World (w_fs w) (load_dotenv C (w_fs w) (environ w)) (EPOCHS w)
       (trace w ++ [LoadDotenv])).
Proof. intros Hkey. unfold download_data. run. by destruct Hkey as [-> | ->]. Qed.

(** C7: when no credential is available (after the [.env] file has been
    loaded, [API_KEY] is unset or empty), [download_data] raises
    [ValueError] with the command that sets the key, before the dataset
    service is contacted; when the dataset root is missing, a run with
    [--train] ends with that uncaught error (exit status 1) and without a
    fetch. *)
Theorem missing_credential_is_fatal C w :
  (load_dotenv C (w_fs w) (environ w) !! "API_KEY" = None ∨
   load_dotenv C (w_fs w) (environ w) !! "API_KEY" = Some "") →
  (download_data C w).1 =
    inl (ValueError ("Set your Roboflow API key:" +:+ nl +:+
                     "  echo 'API_KEY=your_key_here' > .env")) ∧
  trace (download_data C w).2 = trace w ++ [LoadDotenv] ∧
  w_fs (download_data C w).2 = w_fs w ∧
  (exists_ (w_fs w) DATA_ROOT = false →
   ∀ argv, argv_train argv = true →
     (main C argv w).1 =
       inl (ValueError ("Set your Roboflow API key:" +:+ nl +:+
                        "  echo 'API_KEY=your_key_here' > .env")) ∧
     exit_status (main C argv w).1 = 1 ∧
     fetches (trace (main C argv w).2) = fetches (trace w) ∧
     w_fs (main C argv w).2 = w_fs w).
Proof.
  intros Hkey. rewrite (download_data_no_key _ _ Hkey). simpl.
  split; [done|]. split; [done|]. split; [done|].
  intros Hroot argv Htrain. rewrite main_run. cbv zeta. rewrite Htrain. simpl.
  unfold mbind at 1, M_bind at 1. unfold train, ensure_dataset. run.
  rewrite Hroot. run. rewrite download_data_no_key by done. run.
  split; [done|]. split; [done|]. split; [|done].
  unfold fetches. by rewrite <-(assoc_L (++)), List.filter_app, length_app.
Qed.

Lemma missing_credential_is_fatal_witness :
  (download_data (mock export_adjacent) (initial_world fs_two_runs ∅)).1 =
    inl (ValueError ("Set your Roboflow API key:" +:+ nl +:+
                     "  echo 'API_KEY=your_key_here' > .env")) ∧
  trace (download_data (mock export_adjacent) (initial_world fs_two_runs ∅)).2
    = [] ++ [LoadDotenv] ∧
  w_fs (download_data (mock export_adjacent) (initial_world fs_two_runs ∅)).2
    = fs_two_runs ∧
  (exists_ fs_two_runs DATA_ROOT = false →
   ∀ argv, argv_train argv = true →
     (main (mock export_adjacent) argv (initial_world fs_two_runs ∅)).1 =
       inl (ValueError ("Set your Roboflow API key:" +:+ nl +:+
                        "  echo 'API_KEY=your_key_here' > .env")) ∧
     exit_status (main (mock export_adjacent) argv (initial_world fs_two_runs ∅)).1 = 1 ∧
     fetches (trace (main (mock export_adjacent) argv (initial_world fs_two_runs ∅)).2)
       = fetches [] ∧
     w_fs (main (mock export_adjacent) argv (initial_world fs_two_runs ∅)).2
       = fs_two_runs).
Proof.
  apply (missing_credential_is_fatal (mock export_adjacent)
           (initial_world fs_two_runs ∅)).
  left. reflexivity.
Defined.

Lemma fetches_app t1 t2 : fetches (t1 ++ t2) = (fetches t1 + fetches t2)%nat.
Proof. unfold fetches. by rewrite List.filter_app, length_app. Qed.

Lemma fetches_none evs : Forall (λ ev, is_fetch ev = false) evs → fetches evs = 0%nat.
Proof.
  unfold fetches. induction 1 as [|ev evs Hev _ IH]; simpl; [done|]. by rewrite Hev.
Qed.

(** C4: when the dataset root exists, the guard in [train] is a no-op and
    the whole training stage performs no fetch; and two dataset
    materialisations in a row fetch at most once, given that a fetch that
    returns normally has created the dataset root. *)
Theorem dataset_fetched_at_most_once C w :
  (exists_ (w_fs w) DATA_ROOT = true →
   ensure_dataset C w = (inr tt, w) ∧
   fetches (trace (train C w).2) = fetches (trace w)) ∧
  ((∀ key ws proj v fmt fs fs',
      roboflow_download C key ws proj v fmt fs = inr fs' → is_Some (fs' !! DATA_ROOT)) →
   (fetches (trace ((ensure_dataset C ≫= λ _, ensure_dataset C) w).2)
    ≤ fetches (trace w) + 1)%nat).
Proof.
  split.
  - intros Hroot. split; [by apply ensure_dataset_present|].
    destruct (train_events C w) as (_ & evs & -> & Hall).
    rewrite fetches_app, (fetches_none evs); [lia|].
    eapply Forall_impl; [exact Hall|].
    intros [] Hev; simpl in *; try done. destruct Hev. congruence.
  - intros Hcreates. unfold mbind, M_bind.
    destruct (ensure_dataset_events C w) as (_ & evs & Ht & _ & Hn & Hfs).
    destruct (ensure_dataset C w) as [[e|[]] w1] eqn:Hfirst; simpl in *.
    + rewrite Ht, fetches_app. lia.
    + assert (exists_ (w_fs w1) DATA_ROOT = true) as Hroot1.
      { destruct (exists_ (w_fs w) DATA_ROOT) eqn:Hroot.
        - rewrite ensure_dataset_present in Hfirst by done. by simplify_eq.
        - destruct Hfs as (key & fs0 & Hdl); [done..|].
          apply exists_Some. by eapply Hcreates. }
      rewrite ensure_dataset_present by done. simpl.
      rewrite Ht, fetches_app. lia.
Qed.

Lemma dataset_fetched_at_most_once_witness :
  (ensure_dataset (mock export_adjacent) (initial_world fs_dataset ∅)
     = (inr tt, initial_world fs_dataset ∅) ∧
   fetches (trace (train (mock export_adjacent) (initial_world fs_dataset ∅)).2)
     = fetches []) ∧
  (fetches (trace ((ensure_dataset (mock export_adjacent) ≫=
                      λ _, ensure_dataset (mock export_adjacent))
                     (initial_world fs_two_runs {[ "API_KEY" := "k" ]})).2)
   ≤ fetches [] + 1)%nat.
Proof.
  split.
  - apply (proj1 (dataset_fetched_at_most_once (mock export_adjacent)
                    (initial_world fs_dataset ∅))).
    vm_compute. reflexivity.
  - apply (proj2 (dataset_fetched_at_most_once (mock export_adjacent)
                    (initial_world fs_two_runs {[ "API_KEY" := "k" ]}))).
    intros key ws proj v fmt fs fs' [= <-].
    rewrite lookup_insert_ne by (vm_compute; congruence).
    rewrite lookup_insert_eq. eexists. reflexivity.
Defined.

(** ** Training and conversion parameters *)


(** With the dataset in place and the base model loaded, the outcome of
    [train] is the outcome of the training routine called with
    [train_call]. *)
Lemma train_ready_run C w fs1 :
  exists_ (w_fs w) DATA_ROOT = true →
  exists_ (w_fs w) (joinpath DATA_ROOT "data.yaml") = true →
  YOLO C BASE_MODEL (w_fs w) = inr fs1 →
  train C w =
    match yolo_train C BASE_MODEL (train_call C (EPOCHS w)) fs1 with
    | inl e =>
        (inl e, World fs1 (environ w) (EPOCHS w)
                  (trace w ++ training_events C (EPOCHS w)))
    | inr fs2 =>
        match get_best_weights_fs fs2 with
        | inl e =>
            (inl e, World fs2 (environ w) (EPOCHS w)
                      (trace w ++ training_events C (EPOCHS w)))
        | inr r =>
            (inr tt, World fs2 (environ w) (EPOCHS w)
                       ((trace w ++ training_events C (EPOCHS w)) ++
                        [Stdout ("✅  Training complete! Weights at " +:+ path_str r)]))
        end
    end.
Proof.
  intros Hroot Hyaml Hload. unfold train.
  unfold mbind at 1, M_bind at 1. rewrite ensure_dataset_present by done.
  run. rewrite Hyaml. run. rewrite Hload. run.
  change {| t_data := absolute_str C (joinpath DATA_ROOT "data.yaml");
            t_epochs := EPOCHS w; t_imgsz := IMGSZ; t_batch := -1;
            t_device := "mps"; t_project := path_str (parent RUNS_DIR);
            t_name := name RUNS_DIR |} with (train_call C (EPOCHS w)).
  destruct (yolo_train C BASE_MODEL (train_call C (EPOCHS w)) fs1) as [e|fs2]; run.
  { by rewrite <-!(assoc_L (++)). }
  destruct (get_best_weights_fs fs2) as [e|r]; run; by rewrite <-!(assoc_L (++)).
Qed.

(** With the weights resolved and the model loaded, the outcome of
    [export_to_coreml] is decided by the outcome of the conversion routine
    called for the CoreML format with NMS and the input size [IMGSZ]. *)
Lemma export_to_coreml_run C wp w p fs1 :
  resolve_weights wp (w_fs w) = inr p →
  YOLO C (path_str p) (w_fs w) = inr fs1 →
  export_to_coreml C wp w =
    match yolo_export C (path_str p)
            {| e_format := "coreml"; e_nms := true; e_imgsz := IMGSZ |} fs1 with
    | inl e =>
        (inl e, World fs1 (environ w) (EPOCHS w) (trace w ++ conversion_events p))
    | inr fs_c =>
        match with_suffix p ".mlpackage" with
        | inl e =>
            (inl e, World fs_c (environ w) (EPOCHS w) (trace w ++ conversion_events p))
        | inr exported =>
            if exists_ fs_c exported then
              match (if exists_ fs_c target then rmtree target fs_c else inr fs_c) with
              | inl e =>
                  (inl e, World fs_c (environ w) (EPOCHS w)
                            (trace w ++ conversion_events p))
              | inr fs2 =>
                  match rename exported target fs2 with
                  | inl e =>
                      (inl e, World fs2 (environ w) (EPOCHS w)
                                (trace w ++ conversion_events p))
                  | inr fs3 =>
                      (inr tt, World fs3 (environ w) (EPOCHS w)
                                 ((trace w ++ conversion_events p) ++ saved_message))
                  end
              end
            else
              (inr tt, World fs_c (environ w) (EPOCHS w)
                         (trace w ++ conversion_events p ++ missing_warning exported))
        end
    end.
Proof.
  intros Hp Hload.
  destruct (yolo_export C (path_str p) _ fs1) as [e|fs_c] eqn:Hconv.
  { unfold export_to_coreml.
    destruct wp as [p'|]; simpl in Hp; simplify_eq; run;
      rewrite ?Hp; run; rewrite Hload; run; rewrite Hconv; run;
      by rewrite <-!(assoc_L (++)). }
  destruct (with_suffix p ".mlpackage") as [e|exported] eqn:Hsfx.
  { unfold export_to_coreml.
    destruct wp as [p'|]; simpl in Hp; simplify_eq; run;
      rewrite ?Hp; run; rewrite Hload; run; rewrite Hconv; run; rewrite Hsfx; run;
      by rewrite <-!(assoc_L (++)). }
  assert (converted C wp w p exported fs_c) as Hc by (split; eauto).
  destruct (exists_ fs_c exported) eqn:Hfound.
  - apply bool_decide_eq_true in Hfound.
    by rewrite (export_to_coreml_found _ _ _ _ _ _ Hc Hfound).
  - apply bool_decide_eq_false in Hfound.
    apply (export_to_coreml_missing _ _ _ _ _ _ Hc).
    destruct (fs_c !! exported) eqn:E; [|done]. destruct Hfound. eauto.
Qed.

(** C5: the conversion routine is called for the CoreML format with NMS
    fused and with the input size [IMGSZ], the size the training routine is
    called with: once the weights resolve and the model loads, the outcome
    of an export is the outcome of that call (its error is raised, its
    filesystem is the one the package is looked for in), and every
    conversion call of an export or of a whole run carries these
    arguments. *)
Theorem conversion_fuses_nms_at_training_size C :
  (∀ wp w, Forall export_call_ok (trace w) →
           Forall export_call_ok (trace (export_to_coreml C wp w).2)) ∧
  (∀ wp w p fs1,
     resolve_weights wp (w_fs w) = inr p →
     YOLO C (path_str p) (w_fs w) = inr fs1 →
     YoloExport (path_str p) {| e_format := "coreml"; e_nms := true; e_imgsz := IMGSZ |}
       ∈ trace (export_to_coreml C wp w).2) ∧
  (∀ argv w, Forall (λ ev, export_call_ok ev ∧ train_call_ok ev) (trace w) →
             Forall (λ ev, export_call_ok ev ∧ train_call_ok ev)
               (trace (main C argv w).2)) ∧
  IMGSZ = 640 ∧
  (∀ wp w p fs1,
     resolve_weights wp (w_fs w) = inr p →
     YOLO C (path_str p) (w_fs w) = inr fs1 →
     export_to_coreml C wp w =
       match yolo_export C (path_str p)
               {| e_format := "coreml"; e_nms := true; e_imgsz := IMGSZ |} fs1 with
       | inl e =>
           (inl e, World fs1 (environ w) (EPOCHS w) (trace w ++ conversion_events p))
       | inr fs_c =>
           match with_suffix p ".mlpackage" with
           | inl e =>
               (inl e, World fs_c (environ w) (EPOCHS w)
                         (trace w ++ conversion_events p))
           | inr exported =>
               if exists_ fs_c exported then
                 match (if exists_ fs_c target then rmtree target fs_c
                        else inr fs_c) with
                 | inl e =>
                     (inl e, World fs_c (environ w) (EPOCHS w)
                               (trace w ++ conversion_events p))
                 | inr fs2 =>
                     match rename exported target fs2 with
                     | inl e =>
                         (inl e, World fs2 (environ w) (EPOCHS w)
                                   (trace w ++ conversion_events p))
                     | inr fs3 =>
                         (inr tt, World fs3 (environ w) (EPOCHS w)
                                    ((trace w ++ conversion_events p) ++ saved_message))
                     end
                 end
               else
                 (inr tt, World fs_c (environ w) (EPOCHS w)
                            (trace w ++ conversion_events p ++
                             missing_warning exported))
           end
       end) ∧
  (∀ w fs1,
     exists_ (w_fs w) DATA_ROOT = true →
     exists_ (w_fs w) (joinpath DATA_ROOT "data.yaml") = true →
     YOLO C BASE_MODEL (w_fs w) = inr fs1 →
     t_imgsz (train_call C (EPOCHS w)) = IMGSZ ∧
     ∀ e, yolo_train C BASE_MODEL (train_call C (EPOCHS w)) fs1 = inl e →
          train C w = (inl e, World fs1 (environ w) (EPOCHS w)
                                (trace w ++ training_events C (EPOCHS w)))).
Proof.
  split; [|split; [|split; [|split; [done|split]]]].
  - intros wp w Hw.
    destruct (export_to_coreml_events C wp w) as (_ & evs & -> & Hall).
    apply Forall_app_2; [done|]. eapply Forall_impl; [exact Hall|].
    intros [] ?; simpl in *; by subst.
  - intros wp w p fs1 Hp Hload. unfold export_to_coreml.
    destruct wp as [p'|]; simpl in Hp; simplify_eq; run;
      rewrite ?Hp; run; rewrite Hload; run;
      repeat (case_match; simplify_eq/=; run);
      rewrite !elem_of_app, !list_elem_of_singleton; auto 10.
  - intros argv w Hw.
    destruct (main_events C argv w) as (evs & -> & Hall).
    apply Forall_app_2; [done|]. eapply Forall_impl; [exact Hall|].
    intros [] ?; simpl in *; try done.
    + by destruct_and!; subst.
    + by subst.
  - apply export_to_coreml_run.
  - intros w fs1 Hroot Hyaml Hload. split; [done|]. intros e He.
    by rewrite (train_ready_run C w fs1), He.
Qed.

Lemma conversion_fuses_nms_at_training_size_witness :
  Forall export_call_ok
    (trace (export_to_coreml (mock export_adjacent) None (initial_world fs_stale ∅)).2) ∧
  YoloExport (path_str ["runs"; "detect2"; "weights"; "best.pt"])
    {| e_format := "coreml"; e_nms := true; e_imgsz := IMGSZ |}
    ∈ trace (export_to_coreml (mock export_adjacent) None (initial_world fs_stale ∅)).2 ∧
  export_to_coreml (mock (λ _ _ _, inl (LibraryError "coremltools"))) None
    (initial_world fs_stale ∅) =
    (inl (LibraryError "coremltools"),
     World fs_stale ∅ 30
       ([] ++ conversion_events ["runs"; "detect2"; "weights"; "best.pt"])).
Proof.
  split; [|split].
  - apply (proj1 (conversion_fuses_nms_at_training_size (mock export_adjacent))).
    apply Forall_nil_2.
  - apply (proj1 (proj2 (conversion_fuses_nms_at_training_size (mock export_adjacent)))
             None (initial_world fs_stale ∅) _ fs_stale).
    + vm_compute. reflexivity.
    + reflexivity.
  - refine (proj1 (proj2 (proj2 (proj2 (proj2
              (conversion_fuses_nms_at_training_size
                 (mock (λ _ _ _, inl (LibraryError "coremltools"))))))))
              None (initial_world fs_stale ∅)
              ["runs"; "detect2"; "weights"; "best.pt"] fs_stale _ _).
    + vm_compute. reflexivity.
    + reflexivity.
Defined.




(** * Further properties of the script *)

(** ** Pipeline Controller *)

(** X1: with neither [--train] nor [--export] the script prints the usage
    and the example and exits with status 0; it reads and writes no file
    and calls no library, whatever the other options are. *)
Theorem main_without_flags_prints_usage C argv w :
  argv_train argv = false →
  argv_export argv = false →
  (main C argv w).1 = inl (SystemExit 0) ∧
  exit_status (main C argv w).1 = 0 ∧
  w_fs (main C argv w).2 = w_fs w ∧
  environ (main C argv w).2 = environ w ∧
  trace (main C argv w).2 =
    trace w ++ [Usage; Stdout (nl +:+ "Example:");
                Stdout "  python train_and_export.py --train --export"].
Proof.
  intros Htrain Hexport. rewrite main_run. cbv zeta.
  by rewrite Htrain, Hexport.
Qed.

Lemma main_without_flags_prints_usage_witness :
  let argv := {| argv_train := false; argv_export := false;
                 argv_weights := Some "w.pt"; argv_epochs := Some 3 |} in
  let w := initial_world fs_two_runs ∅ in
  (main (mock export_adjacent) argv w).1 = inl (SystemExit 0) ∧
  exit_status (main (mock export_adjacent) argv w).1 = 0 ∧
  w_fs (main (mock export_adjacent) argv w).2 = fs_two_runs ∧
  environ (main (mock export_adjacent) argv w).2 = ∅ ∧
  trace (main (mock export_adjacent) argv w).2 =
    [] ++ [Usage; Stdout (nl +:+ "Example:");
           Stdout "  python train_and_export.py --train --export"].
Proof.
  apply (main_without_flags_prints_usage (mock export_adjacent)
           {| argv_train := false; argv_export := false;
              argv_weights := Some "w.pt"; argv_epochs := Some 3 |}
           (initial_world fs_two_runs ∅)); reflexivity.
Defined.

(** X2: when training fails, [main] ends with the error of the training
    stage in the state that stage left: no export is started, so no
    conversion call is made and no package is moved. *)
Theorem failed_training_prevents_export C argv w e :
  argv_train argv = true →
  (train C (overridden argv w)).1 = inl e →
  main C argv w = (inl e, (train C (overridden argv w)).2) ∧
  ∃ evs, trace (main C argv w).2 = trace w ++ evs ∧ Forall not_export evs.
Proof.
  intros Htrain Hfail. rewrite main_run. cbv zeta. fold (overridden argv w).
  rewrite Htrain. simpl. unfold mbind, M_bind.
  destruct (train_events C (overridden argv w)) as (_ & evs & Ht & Hall).
  destruct (train C (overridden argv w)) as [r w2]. simpl in *. subst r.
  split; [done|]. exists evs. split; [done|].
  eapply Forall_impl; [exact Hall|]. by intros [] ?.
Qed.

Lemma failed_training_prevents_export_witness :
  let argv := {| argv_train := true; argv_export := true;
                 argv_weights := None; argv_epochs := None |} in
  let w := initial_world fs_no_manifest ∅ in
  main (mock export_adjacent) argv w =
    (inl (FileNotFoundError "Missing Mahjong_detect-18/data.yaml"),
     (train (mock export_adjacent) (overridden argv w)).2) ∧
  ∃ evs, trace (main (mock export_adjacent) argv w).2 = trace w ++ evs ∧
         Forall not_export evs.
Proof.
  apply (failed_training_prevents_export (mock export_adjacent)
           {| argv_train := true; argv_export := true;
              argv_weights := None; argv_epochs := None |}
           (initial_world fs_no_manifest ∅)).
  - reflexivity.
  - vm_compute. reflexivity.
Defined.

(** ** Training Orchestrator *)

(** X3: when the dataset manifest is missing after the dataset guard,
    [train] raises [FileNotFoundError] naming the manifest, in the state the
    guard left: no model is loaded and no training is started.  In
    particular a dataset directory without [data.yaml] is not downloaded
    again. *)
Theorem train_fails_fast_without_manifest C w w1 :
  ensure_dataset C w = (inr tt, w1) →
  exists_ (w_fs w1) (joinpath DATA_ROOT "data.yaml") = false →
  train C w = (inl (FileNotFoundError "Missing Mahjong_detect-18/data.yaml"), w1) ∧
  (exists_ (w_fs w) DATA_ROOT = true → w1 = w).
Proof.
  intros Hguard Hyaml. split.
  - unfold train. unfold mbind at 1, M_bind at 1. rewrite Hguard. run.
    by rewrite Hyaml.
  - intros Hroot. rewrite ensure_dataset_present in Hguard by done. congruence.
Qed.

Lemma train_fails_fast_without_manifest_witness :
  train (mock export_adjacent) (initial_world fs_no_manifest ∅) =
    (inl (FileNotFoundError "Missing Mahjong_detect-18/data.yaml"),
     initial_world fs_no_manifest ∅) ∧
  (exists_ fs_no_manifest DATA_ROOT = true →
   initial_world fs_no_manifest ∅ = initial_world fs_no_manifest ∅).
Proof.
  apply (train_fails_fast_without_manifest (mock export_adjacent)
           (initial_world fs_no_manifest ∅) (initial_world fs_no_manifest ∅)).
  - reflexivity.
  - vm_compute. reflexivity.
Defined.

(** What a training stage that returned normally has done. *)
Lemma train_ok_inv C w w' :
  train C w = (inr tt, w') →
  ∃ r t, get_best_weights_fs (w_fs w') = inr r ∧
         trace w' = t ++ [Stdout ("✅  Training complete! Weights at " +:+ path_str r)] ∧
         YoloTrain BASE_MODEL (train_call C (EPOCHS w)) ∈ t.
Proof.
  unfold train. unfold mbind at 1, M_bind at 1.
  destruct (ensure_dataset_events C w) as (HE & _).
  destruct (ensure_dataset C w) as [[e|[]] w1]; simpl in HE; [done|].
  run. repeat (case_match; simplify_eq/=; run); intros Hok; simplify_eq/=.
  eexists _, _. split; [eassumption|]. split; [reflexivity|].
  rewrite HE, !elem_of_app, !list_elem_of_singleton. auto.
Qed.



(** X5: when the dataset root exists, the training stage needs no
    credential: it does not load the [.env] file, does not contact the
    dataset service and leaves the environment as it is. *)
Theorem train_with_dataset_needs_no_credential C w :
  exists_ (w_fs w) DATA_ROOT = true →
  environ (train C w).2 = environ w ∧
  ∃ evs, trace (train C w).2 = trace w ++ evs ∧ Forall offline evs.
Proof.
  intros Hroot. unfold train. run.
  rewrite ensure_dataset_present by done. run.
  repeat (case_match; simplify_eq/=; run); (split; [done|]); events; all_events.
Qed.

Lemma train_with_dataset_needs_no_credential_witness :
  environ (train (mock export_adjacent) (initial_world fs_ready ∅)).2 = ∅ ∧
  ∃ evs, trace (train (mock export_adjacent) (initial_world fs_ready ∅)).2 = [] ++ evs ∧
         Forall offline evs.
Proof.
  apply (train_with_dataset_needs_no_credential (mock export_adjacent)
           (initial_world fs_ready ∅)).
  vm_compute. reflexivity.
Defined.

(** X6: a run directory that training creates under its [project] with a
    name that starts with its [name] argument is one the run locator
    searches: a "best" checkpoint in it is a candidate, so
    [get_best_weights] answers with a "best" checkpoint that is at least as
    great in the sort order. *)
Theorem training_runs_are_located (C : Collaborators) (n : Z) (sfx : string) (fs : FS) :
  let run := Path_of_string (t_project (train_call C n)) ++
             [t_name (train_call C n) +:+ sfx] in
  is_Some (fs !! (run ++ ["weights"; "best.pt"])) →
  is_checkpoint "best.pt" fs (run ++ ["weights"; "best.pt"]) ∧
  ∃ r, get_best_weights_fs fs = inr r ∧ name r = "best.pt" ∧
       path_le (run ++ ["weights"; "best.pt"]) r.
Proof.
  intros run Hsome.
  assert (is_checkpoint "best.pt" fs (run ++ ["weights"; "best.pt"])) as Hck.
  { split; [done|]. exists ("detect" +:+ sfx). split; [|done].
    clear. induction sfx; done. }
  split; [done|].
  destruct (get_best_weights_fs_best fs) as (r & Hr & Hrck & Hmax); [by eauto|].
  exists r. split; [done|]. split; [by apply (is_checkpoint_name "best.pt" fs)|by apply Hmax].
Qed.

Lemma training_runs_are_located_witness :
  is_checkpoint "best.pt" fs_two_runs ["runs"; "detect2"; "weights"; "best.pt"] ∧
  ∃ r, get_best_weights_fs fs_two_runs = inr r ∧ name r = "best.pt" ∧
       path_le ["runs"; "detect2"; "weights"; "best.pt"] r.
Proof.
  apply (training_runs_are_located (mock export_adjacent) 30 "2" fs_two_runs).
  vm_compute. eexists. reflexivity.
Defined.

(** ** Dataset Provider, with a credential *)

(** X7: with a credential, [download_data] makes exactly one request to the
    dataset service, with that credential and for version 18 in the
    [yolov11] format; an error of the service is raised unchanged, without
    a retry and without the success line; otherwise the filesystem is the
    one the service left. *)
Theorem download_data_single_attempt C w key :
  load_dotenv C (w_fs w) (environ w) !! "API_KEY" = Some key →
  key ≠ "" →
  let fetch := RoboflowDownload key "mahjongdetect-6yabv" "mahjong_detect" 18 "yolov11" in
  let env' := load_dotenv C (w_fs w) (environ w) in
  download_data C w =
    match roboflow_download C key "mahjongdetect-6yabv" "mahjong_detect" 18 "yolov11"
            (w_fs w) with
    | inl e => (inl e, World (w_fs w) env' (EPOCHS w) (trace w ++ [LoadDotenv; fetch]))
    | inr fs' =>
        (inr tt, World fs' env' (EPOCHS w)
                   (trace w ++ [LoadDotenv; fetch;
                                Stdout "✅  Dataset downloaded to Mahjong_detect-18"]))
    end.
Proof.
  intros Hkey Hne. cbv zeta. unfold download_data. run. rewrite Hkey.
  destruct key as [|c key]; [done|]. run.
  change ROBOFLOW_VERSION with 18.
  destruct (roboflow_download C _ _ _ _ _ (w_fs w)) as [e|fs']; run;
    by rewrite <-!(assoc_L (++)).
Qed.

Lemma download_data_single_attempt_witness :
  download_data (mock export_adjacent) (initial_world fs_two_runs {[ "API_KEY" := "k" ]}) =
    (inr tt,
     World (<[DATA_ROOT ++ ["data.yaml"] := File "names: []"]>
              (<[DATA_ROOT := Dir]> fs_two_runs))
       {[ "API_KEY" := "k" ]} 30
       ([] ++ [LoadDotenv;
               RoboflowDownload "k" "mahjongdetect-6yabv" "mahjong_detect" 18 "yolov11";
               Stdout "✅  Dataset downloaded to Mahjong_detect-18"])).
Proof.
  refine (download_data_single_attempt (mock export_adjacent)
            (initial_world fs_two_runs {[ "API_KEY" := "k" ]}) "k" _ _).
  - reflexivity.
  - discriminate.
Defined.

(** ** Export Orchestrator: what else can happen *)

Lemma export_to_coreml_unresolved C w e :
  get_best_weights_fs (w_fs w) = inl e → export_to_coreml C None w = (inl e, w).
Proof. intros Hno. unfold export_to_coreml. run. by rewrite Hno. Qed.

Lemma export_to_coreml_resolved C wp w p :
  resolve_weights wp (w_fs w) = inr p →
  environ (export_to_coreml C wp w).2 = environ w ∧
  ∃ evs, trace (export_to_coreml C wp w).2 = trace w ++ evs ∧
         Forall (export_only (path_str p)) evs ∧
         (∀ fs1, YOLO C (path_str p) (w_fs w) = inr fs1 →
                 YoloExport (path_str p)
                   {| e_format := "coreml"; e_nms := true; e_imgsz := IMGSZ |} ∈ evs).
Proof.
  intros Hp.
  assert (export_to_coreml C wp w = export_to_coreml C (Some p) w) as ->.
  { destruct wp as [p'|]; simpl in Hp; [by simplify_eq|].
    unfold export_to_coreml. run. by rewrite Hp. }
  unfold export_to_coreml. run.
  destruct (YOLO C (path_str p) (w_fs w)) as [e|fs1]; run.
  { split; [done|]. events. split; [all_events|]. by intros. }
  repeat (case_match; simplify_eq/=; run); (split; [done|]); events;
    (split; [all_events|]); intros _ _; simpl;
    do 2 apply list_elem_of_further; apply list_elem_of_here.
Qed.

(** X8: the events of an export are lines on standard output, loading the
    resolved checkpoint and converting it: an export never trains, never
    loads the [.env] file, never contacts the dataset service, and leaves the
    environment and [EPOCHS] as they are; when no checkpoint resolves it does
    nothing at all. *)
Theorem export_only_exports C wp w :
  EPOCHS (export_to_coreml C wp w).2 = EPOCHS w ∧
  environ (export_to_coreml C wp w).2 = environ w ∧
  match resolve_weights wp (w_fs w) with
  | inl e => export_to_coreml C wp w = (inl e, w)
  | inr p =>
      ∃ evs, trace (export_to_coreml C wp w).2 = trace w ++ evs ∧
             Forall (export_only (path_str p)) evs
  end.
Proof.
  split; [apply export_to_coreml_events|].
  destruct (resolve_weights wp (w_fs w)) as [e|p] eqn:Hp.
  - destruct wp as [p'|]; [done|]. simpl in Hp.
    by rewrite (export_to_coreml_unresolved _ _ _ Hp).
  - destruct (export_to_coreml_resolved C wp w p Hp) as (Henv & evs & Ht & Hall & _).
    eauto.
Qed.

(** X9: a non-empty [--weights] option decides what is exported, also when
    [--train] is given: every conversion call of the run is on that path,
    relative or absolute ([/tmp/w.pt] stays [/tmp/w.pt]); without
    [--train], when the model loads, the call is made whatever the training
    runs on disk hold, and an error of the conversion routine called on
    that path ends the run. *)
Theorem explicit_weights_are_exported C argv w s :
  argv_export argv = true →
  argv_weights argv = Some s →
  s ≠ "" →
  (∃ evs, trace (main C argv w).2 = trace w ++ evs ∧
          Forall (exports_model (path_str (Path_of_string s))) evs) ∧
  (argv_train argv = false →
   ∀ fs1, YOLO C (path_str (Path_of_string s)) (w_fs w) = inr fs1 →
          YoloExport (path_str (Path_of_string s))
            {| e_format := "coreml"; e_nms := true; e_imgsz := IMGSZ |}
            ∈ trace (main C argv w).2) ∧
  (argv_train argv = false →
   ∀ fs1 e,
     YOLO C (path_str (Path_of_string s)) (w_fs w) = inr fs1 →
     yolo_export C (path_str (Path_of_string s))
       {| e_format := "coreml"; e_nms := true; e_imgsz := IMGSZ |} fs1 = inl e →
     main C argv w =
       (inl e, World fs1 (environ w) (default (EPOCHS w) (argv_epochs argv))
                 (trace w ++ conversion_events (Path_of_string s)))) ∧
  path_str (Path_of_string "/tmp/w.pt") = "/tmp/w.pt".
Proof.
  intros Hexport Hweights Hne.
  rewrite main_run. cbv zeta. fold (overridden argv w).
  rewrite Hexport, Hweights, (decide_False (P := s = "")) by done.
  rewrite andb_false_r. unfold mbind, M_bind.
  split; [|split; [|split; [|reflexivity]]]; cycle 2.
  { intros -> fs1 e Hload Hconv. unfold mret, M_ret.
    rewrite (export_to_coreml_run C (Some (Path_of_string s)) (overridden argv w)
               (Path_of_string s) fs1 eq_refl Hload).
    by rewrite Hconv. }
  - assert (∃ r w2 evs,
              (if argv_train argv then train C else mret tt) (overridden argv w) = (r, w2) ∧
              trace w2 = trace w ++ evs ∧
              Forall (exports_model (path_str (Path_of_string s))) evs)
      as (r & w2 & evs & -> & Ht & Hall).
    { destruct (argv_train argv).
      - destruct (train_events C (overridden argv w)) as (_ & evs & Ht & Hall).
        destruct (train C (overridden argv w)) as [r w2].
        exists r, w2, evs. split; [done|]. split; [done|].
        eapply Forall_impl; [exact Hall|]. by intros [] ?.
      - exists (inr tt), (overridden argv w), []. by rewrite app_nil_r. }
    destruct r as [e|[]]; [by eauto|].
    destruct (export_to_coreml_resolved C (Some (Path_of_string s)) w2 _ eq_refl)
      as (_ & evs' & Ht' & Hall' & _).
    exists (evs ++ evs'). rewrite Ht', Ht, <-(assoc_L (++)). split; [done|].
    apply Forall_app_2; [done|]. eapply Forall_impl; [exact Hall'|].
    intros [] ?; simpl in *; try done. by destruct_and!.
  - intros -> fs1 Hload. unfold mret, M_ret.
    destruct (export_to_coreml_resolved C (Some (Path_of_string s))
                (overridden argv w) _ eq_refl) as (_ & evs' & -> & _ & Hin).
    apply elem_of_app. right. by eapply Hin.
Qed.

Lemma explicit_weights_are_exported_witness :
  let argv := {| argv_train := false; argv_export := true;
                 argv_weights := Some "/tmp/w.pt"; argv_epochs := None |} in
  let w := initial_world fs_two_runs ∅ in
  (∃ evs, trace (main (mock export_adjacent) argv w).2 = trace w ++ evs ∧
          Forall (exports_model "/tmp/w.pt") evs) ∧
  (argv_train argv = false →
   ∀ fs1, YOLO (mock export_adjacent) "/tmp/w.pt" (w_fs w) = inr fs1 →
          YoloExport "/tmp/w.pt"
            {| e_format := "coreml"; e_nms := true; e_imgsz := IMGSZ |}
            ∈ trace (main (mock export_adjacent) argv w).2) ∧
  (argv_train argv = false →
   ∀ fs1 e,
     YOLO (mock export_adjacent) "/tmp/w.pt" (w_fs w) = inr fs1 →
     yolo_export (mock export_adjacent) "/tmp/w.pt"
       {| e_format := "coreml"; e_nms := true; e_imgsz := IMGSZ |} fs1 = inl e →
     main (mock export_adjacent) argv w =
       (inl e, World fs1 (environ w) (default (EPOCHS w) (argv_epochs argv))
                 (trace w ++ conversion_events ["/"; "tmp"; "w.pt"]))) ∧
  path_str (Path_of_string "/tmp/w.pt") = "/tmp/w.pt".
Proof.
  refine (explicit_weights_are_exported (mock export_adjacent)
            {| argv_train := false; argv_export := true;
               argv_weights := Some "/tmp/w.pt"; argv_epochs := None |}
            (initial_world fs_two_runs ∅) "/tmp/w.pt" _ _ _).
  - reflexivity.
  - reflexivity.
  - discriminate.
Defined.

(** X10: when a regular file sits at the canonical output path, an export
    that found its converted package raises [NotADirectoryError] from
    [rmtree]: the file stays, and the fresh package stays where the
    conversion wrote it. *)
Theorem export_onto_file_fails C wp w p exported fs_c content :
  converted C wp w p exported fs_c →
  is_Some (fs_c !! exported) →
  fs_c !! target = Some (File content) →
  export_to_coreml C wp w =
    (inl (NotADirectoryError "MahjongTileDetector.mlpackage"),
     World fs_c (environ w) (EPOCHS w) (trace w ++ conversion_events p)).
Proof.
  intros Hconv Hfound Hfile.
  rewrite (export_to_coreml_found _ _ _ _ _ _ Hconv Hfound). cbv zeta.
  rewrite exists_Some by (by rewrite Hfile). unfold rmtree. by rewrite Hfile.
Qed.

Lemma export_onto_file_fails_witness :
  export_to_coreml (mock export_adjacent) None (initial_world fs_target_file ∅) =
    (inl (NotADirectoryError "MahjongTileDetector.mlpackage"),
     World fs_target_file_converted ∅ 30
       ([] ++ conversion_events ["runs"; "detect2"; "weights"; "best.pt"])).
Proof.
  apply (export_onto_file_fails (mock export_adjacent) None
           (initial_world fs_target_file ∅) ["runs"; "detect2"; "weights"; "best.pt"]
           ["runs"; "detect2"; "weights"; "best.mlpackage"]
           fs_target_file_converted "not a package").
  - split; [vm_compute; reflexivity|]. split; [|vm_compute; reflexivity].
    exists fs_target_file. split; reflexivity.
  - vm_compute. eexists. reflexivity.
  - vm_compute. reflexivity.
Defined.

(** X11: when the converted package is predicted at or below the canonical
    output path (weights named [MahjongTileDetector.pt] in the working
    directory, or weights kept inside the old package) and a directory is
    there, the export deletes that directory together with the fresh
    package and then fails in [rename] with [FileNotFoundError]: nothing is
    left at the canonical output path. *)
Theorem export_below_target_loses_package C wp w p exported fs_c :
  converted C wp w p exported fs_c →
  is_Some (fs_c !! exported) →
  target `prefix_of` exported →
  fs_c !! target = Some Dir →
  (export_to_coreml C wp w).1 = inl (FileNotFoundError (path_str exported)) ∧
  ∀ k, w_fs (export_to_coreml C wp w).2 !! k =
       if decide (target `prefix_of` k) then None else fs_c !! k.
Proof.
  intros Hconv Hfound Hbelow Hdir.
  rewrite (export_to_coreml_found _ _ _ _ _ _ Hconv Hfound). cbv zeta.
  rewrite exists_Some by (by rewrite Hdir).
  destruct (rmtree target fs_c) as [e|fs2] eqn:Hrm.
  { unfold rmtree in Hrm. by rewrite Hdir in Hrm. }
  assert (fs2 !! exported = None) as Hgone.
  { etrans; [apply (rmtree_lookup _ _ _ exported Hrm)|]. by rewrite decide_True. }
  unfold rename. rewrite Hgone. simpl. split; [done|].
  intros k. apply (rmtree_lookup _ _ _ k Hrm).
Qed.

Lemma export_below_target_loses_package_witness :
  (export_to_coreml (mock export_adjacent) (Some ["MahjongTileDetector.pt"])
     (initial_world fs_two_runs ∅)).1
    = inl (FileNotFoundError (path_str ["MahjongTileDetector.mlpackage"])) ∧
  ∀ k, w_fs (export_to_coreml (mock export_adjacent) (Some ["MahjongTileDetector.pt"])
               (initial_world fs_two_runs ∅)).2 !! k =
       if decide (target `prefix_of` k) then None else fs_self_converted !! k.
Proof.
  apply (export_below_target_loses_package (mock export_adjacent)
           (Some ["MahjongTileDetector.pt"]) (initial_world fs_two_runs ∅)
           ["MahjongTileDetector.pt"] ["MahjongTileDetector.mlpackage"]
           fs_self_converted).
  - split; [reflexivity|]. split; [|vm_compute; reflexivity].
    exists fs_two_runs. split; reflexivity.
  - vm_compute. eexists. reflexivity.
  - reflexivity.
  - vm_compute. reflexivity.
Defined.

(** ** Run Locator: what the answer depends on *)

Lemma glob_detect_NoDup fs root leaf : NoDup (glob_detect fs root leaf).
Proof. unfold glob_detect. apply NoDup_filter, NoDup_fst_map_to_list. Qed.

(** Sorting does not depend on the order in which the candidates come. *)
Lemma sorted_Permutation l1 l2 : l1 ≡ₚ l2 → sorted l1 = sorted l2.
Proof.
  intros Hperm. unfold sorted.
  apply (Sorted_unique path_le); [apply Sorted_merge_sort, _..|].
  by rewrite !merge_sort_Permutation.
Qed.

Lemma is_checkpoint_insert (leaf : string) (fs : FS) (k : Path) (e : entry) (p : Path) :
  glob_match (parent RUNS_DIR) leaf k = false →
  is_checkpoint leaf (<[k := e]> fs) p ↔ is_checkpoint leaf fs p.
Proof.
  intros Hk. unfold is_checkpoint.
  destruct (decide (k = p)) as [->|Hne]; [|by rewrite lookup_insert_ne].
  split; intros [_ Hshape]; apply glob_match_spec in Hshape; congruence.
Qed.

(** X12: the answer of [get_best_weights] depends only on which "best" and
    "last" checkpoints exist in the matched runs, not on the order in which
    the directory scan yields them nor on anything else on disk: writing any
    other path (a package, a dataset, a run that does not match) leaves the
    answer as it is. *)
Theorem get_best_weights_depends_on_checkpoints :
  (∀ fs1 fs2 : FS,
     (∀ leaf p, leaf = "best.pt" ∨ leaf = "last.pt" →
                is_checkpoint leaf fs1 p ↔ is_checkpoint leaf fs2 p) →
     get_best_weights_fs fs1 = get_best_weights_fs fs2) ∧
  (∀ (fs : FS) k e,
     glob_match (parent RUNS_DIR) "best.pt" k = false →
     glob_match (parent RUNS_DIR) "last.pt" k = false →
     get_best_weights_fs (<[k := e]> fs) = get_best_weights_fs fs).
Proof.
  assert (∀ fs1 fs2 : FS,
     (∀ leaf p, leaf = "best.pt" ∨ leaf = "last.pt" →
                is_checkpoint leaf fs1 p ↔ is_checkpoint leaf fs2 p) →
     get_best_weights_fs fs1 = get_best_weights_fs fs2) as Hdep.
  { intros fs1 fs2 Hsame.
    assert (∀ leaf, leaf = "best.pt" ∨ leaf = "last.pt" →
              sorted (glob_detect fs1 (parent RUNS_DIR) leaf) =
              sorted (glob_detect fs2 (parent RUNS_DIR) leaf)) as Hsorted.
    { intros leaf Hleaf. apply sorted_Permutation.
      apply NoDup_Permutation; [apply glob_detect_NoDup..|].
      intros p. rewrite !elem_of_glob_detect. by apply Hsame. }
    unfold get_best_weights_fs.
    by rewrite (Hsorted "best.pt"), (Hsorted "last.pt") by auto. }
  split; [done|].
  intros fs k e Hbest Hlast. apply Hdep.
  intros leaf p [-> | ->]; by apply is_checkpoint_insert.
Qed.

Lemma get_best_weights_depends_on_checkpoints_witness :
  get_best_weights_fs fs_stale = get_best_weights_fs fs_two_runs ∧
  get_best_weights_fs (<[["Mahjong_detect-18"] := Dir]> fs_two_runs)
    = get_best_weights_fs fs_two_runs.
Proof.
  split.
  - apply (proj1 get_best_weights_depends_on_checkpoints fs_stale fs_two_runs).
    intros leaf p Hleaf. rewrite <-!elem_of_glob_detect.
    assert (glob_detect fs_stale (parent RUNS_DIR) leaf
            = glob_detect fs_two_runs (parent RUNS_DIR) leaf) as ->; [|done].
    destruct Hleaf as [-> | ->]; vm_compute; reflexivity.
  - apply (proj2 get_best_weights_depends_on_checkpoints fs_two_runs
             ["Mahjong_detect-18"] Dir); reflexivity.
Defined.

(** ** Paths: suffixes and strings *)

Lemma string_app_length s t :
  String.length (s +:+ t) = (String.length s + String.length t)%nat.
Proof.
  induction s as [|a s IH]; [done|].
  change (String a s +:+ t) with (String a (s +:+ t)). simpl. by rewrite IH.
Qed.

Lemma string_app_nil_r s : s +:+ "" = s.
Proof.
  induction s as [|a s IH]; [done|].
  change (String a s +:+ "") with (String a (s +:+ "")). by rewrite IH.
Qed.

Lemma rfind_app c s t :
  rfind c (s +:+ t) =
  match rfind c t with
  | Some i => Some (String.length s + i)%nat
  | None => rfind c s
  end.
Proof.
  induction s as [|a s IH].
  { change ("" +:+ t) with t. by destruct (rfind c t). }
  change (String a s +:+ t) with (String a (s +:+ t)). simpl. rewrite IH.
  by destruct (rfind c t).
Qed.

Lemma substring_0_app s t : substring 0 (String.length s) (s +:+ t) = s.
Proof.
  induction s as [|a s IH].
  { change ("" +:+ t) with t. by destruct t. }
  change (String a s +:+ t) with (String a (s +:+ t)). simpl. by rewrite IH.
Qed.

Lemma substring_skip_app s t :
  substring (String.length s) (String.length t) (s +:+ t) = t.
Proof.
  induction s as [|a s IH]; [|done].
  change ("" +:+ t) with t. simpl. induction t as [|b t IHt]; [done|].
  simpl. by rewrite IHt.
Qed.

Lemma substring_length i m s :
  (i + m ≤ String.length s)%nat → String.length (substring i m s) = m.
Proof.
  revert i m. induction s as [|a s IH]; intros [|i] [|m]; simpl; try lia.
  - intros. by rewrite IH by lia.
  - intros. by rewrite IH by lia.
  - intros. by rewrite IH by lia.
Qed.

Lemma is_root_length x : is_root x = true → (String.length x ≤ 2)%nat.
Proof. intros [-> | ->]%bool_decide_eq_true; simpl; lia. Qed.

Lemma name_snoc (p : Path) x : is_root x = false → name (p ++ [x]) = x.
Proof. intros Hx. unfold name. by rewrite last_last, Hx. Qed.

Lemma parent_snoc (p : Path) x : is_root x = false → parent (p ++ [x]) = p.
Proof.
  intros Hx. unfold parent. destruct p as [|y [|z p]].
  - simpl. by rewrite Hx.
  - done.
  - apply (removelast_last (y :: z :: p)).
Qed.

(** The stem that [with_suffix] keeps is not empty. *)
Lemma stem_nonempty (p : Path) :
  name p ≠ "" →
  (if decide (path_suffix p = "") then name p
   else substring 0 (String.length (name p) - String.length (path_suffix p)) (name p))
  ≠ "".
Proof.
  intros Hname. destruct (decide (path_suffix p = "")) as [|Hsfx]; [done|].
  revert Hsfx. unfold path_suffix.
  destruct (rfind "." (name p)) as [i|]; [|done].
  case_bool_decide as Hi; [|done]. intros _.
  rewrite substring_length by lia.
  intros Hempty.
  assert (String.length
            (substring 0 (String.length (name p) - (String.length (name p) - i))
               (name p)) = 0%nat) as Hlen by by rewrite Hempty.
  rewrite substring_length in Hlen by lia. lia.
Qed.

(** X13: the package predicted for a checkpoint lies in the directory of the
    checkpoint and has the suffix [.mlpackage]; predicting again from the
    predicted path gives the same path; and the prediction fails only for a
    path without a name. *)
Theorem predicted_package_is_adjacent (p : Path) :
  (∀ exported, with_suffix p ".mlpackage" = inr exported →
     parent exported = parent p ∧
     path_suffix exported = ".mlpackage" ∧
     with_suffix exported ".mlpackage" = inr exported) ∧
  ((∃ e, with_suffix p ".mlpackage" = inl e) ↔ name p = "").
Proof.
  split.
  - intros exported. unfold with_suffix.
    destruct (decide (name p = "")) as [|Hname]; [done|]. intros [= <-].
    pose proof (stem_nonempty p Hname) as Hstem.
    set (stem := if decide (path_suffix p = "") then name p
                 else substring 0 (String.length (name p)
                                   - String.length (path_suffix p)) (name p)) in *.
    assert ((if decide (path_suffix p = "") then name p +:+ ".mlpackage"
             else substring 0 (String.length (name p)
                               - String.length (path_suffix p)) (name p)
                  +:+ ".mlpackage") = stem +:+ ".mlpackage") as ->.
    { unfold stem. by destruct (decide _). }
    assert (0 < String.length stem)%nat as Hlen.
    { destruct stem; [done|simpl; lia]. }
    assert (is_root (stem +:+ ".mlpackage") = false) as Hnr.
    { destruct (is_root (stem +:+ ".mlpackage")) eqn:Hroot; [|done].
      apply is_root_length in Hroot. rewrite string_app_length in Hroot.
      simpl in Hroot. lia. }
    assert (path_suffix (parent p ++ [stem +:+ ".mlpackage"]) = ".mlpackage") as Hsfx.
    { unfold path_suffix. rewrite name_snoc, rfind_app by done. simpl.
      rewrite string_app_length. simpl.
      rewrite bool_decide_eq_true_2 by lia.
      replace (String.length stem + 0)%nat with (String.length stem) by lia.
      replace (String.length stem + 10 - String.length stem)%nat
        with (String.length ".mlpackage") by (simpl; lia).
      apply substring_skip_app. }
    split; [by apply parent_snoc|]. split; [done|].
    rewrite name_snoc, parent_snoc, Hsfx by done.
    rewrite decide_False by (by destruct stem).
    rewrite decide_False by done.
    rewrite string_app_length.
    replace (String.length stem + String.length ".mlpackage"
             - String.length ".mlpackage")%nat with (String.length stem) by lia.
    by rewrite substring_0_app.
  - unfold with_suffix. destruct (decide (name p = "")); split; try done.
    + eauto.
    + by intros [e ?].
Qed.

Lemma predicted_package_is_adjacent_witness :
  parent ["runs"; "detect2"; "weights"; "best.mlpackage"]
    = parent ["runs"; "detect2"; "weights"; "best.pt"] ∧
  path_suffix ["runs"; "detect2"; "weights"; "best.mlpackage"] = ".mlpackage" ∧
  with_suffix ["runs"; "detect2"; "weights"; "best.mlpackage"] ".mlpackage"
    = inr ["runs"; "detect2"; "weights"; "best.mlpackage"].
Proof.
  apply (proj1 (predicted_package_is_adjacent ["runs"; "detect2"; "weights"; "best.pt"])).
  reflexivity.
Defined.

Lemma rev_app_rev_app x y z :
  String.rev_app (String.rev_app x y) z = String.rev_app y (x +:+ z).
Proof.
  revert y z. induction x as [|a x IH]; intros y z; [done|].
  simpl. rewrite IH. simpl. done.
Qed.

Lemma string_rev_rev_app x : String.rev (String.rev_app x "") = x.
Proof. unfold String.rev. rewrite rev_app_rev_app. simpl. apply string_app_nil_r. Qed.

Lemma split_go_component c x cur rest :
  rfind c x = None →
  split_go c cur (x +:+ rest) = split_go c (String.rev_app x cur) rest.
Proof.
  revert cur. induction x as [|a x IH]; intros cur Hx; [done|].
  change (String a x +:+ rest) with (String a (x +:+ rest)).
  simpl in *. destruct (rfind c x) as [i|]; [done|].
  destruct (decide (a = c)); [done|]. by apply IH.
Qed.

Lemma split_join (p : list string) :
  Forall (λ x, rfind "/" x = None) p → p ≠ [] → split "/" (join "/" p) = p.
Proof.
  unfold split. induction 1 as [|x l Hx Hl IH]; [done|]. intros _.
  destruct l as [|y l'].
  - simpl. rewrite <-(string_app_nil_r x) at 1.
    rewrite split_go_component by done. simpl. by rewrite string_rev_rev_app.
  - change (join "/" (x :: y :: l')) with (x +:+ "/" +:+ join "/" (y :: l')).
    rewrite split_go_component by done.
    change ("/" +:+ join "/" (y :: l')) with (String "/" (join "/" (y :: l'))).
    cbn [split_go]. destruct (decide _) as [_|]; [|done].
    rewrite string_rev_rev_app. f_equal. by apply IH.
Qed.

Lemma root_of_relative a s : a ≠ "/"%char → root_of (String a s) = "".
Proof. intros Ha. destruct a as [[] [] [] [] [] [] [] []]; done. Qed.

Lemma join_component_relative x l :
  is_component x → root_of (join "/" (x :: l)) = "" ∧ is_root x = false.
Proof.
  intros (Hne & _ & Hslash). destruct x as [|a x]; [done|].
  assert (a ≠ "/"%char) as Ha.
  { intros ->. simpl in Hslash. by destruct (rfind "/" x). }
  split.
  - destruct l as [|y l]; [by apply root_of_relative|].
    change (join "/" (String a x :: y :: l))
      with (String a (x +:+ "/" +:+ join "/" (y :: l))).
    by apply root_of_relative.
  - apply bool_decide_eq_false. intros [? | ?]; simplify_eq.
Qed.

(** X14: a path survives the round trip through its string: for a path of
    well-formed components, [Path(str(p))] is [p] (the string handed to the
    model loader names the checkpoint the export goes on to work with). *)
Theorem path_string_round_trip (p : Path) :
  Forall is_component p → Path_of_string (path_str p) = p.
Proof.
  intros Hp. unfold Path_of_string, path_str.
  destruct p as [|x l]; [done|].
  destruct (join_component_relative x l) as [Hrel Hnr]; [by inversion Hp|].
  rewrite Hnr, Hrel. rewrite decide_True by done.
  rewrite split_join; [|eapply Forall_impl; [exact Hp|]; by intros ? (_ & _ & ?)|done].
  clear Hrel Hnr.
  induction Hp as [|y k Hy _ IH]; [done|].
  rewrite filter_cons_True; [by rewrite IH|]. by destruct Hy as (? & ? & _).
Qed.

Lemma path_string_round_trip_witness :
  Path_of_string (path_str ["runs"; "detect2"; "weights"; "best.pt"])
    = ["runs"; "detect2"; "weights"; "best.pt"].
Proof.
  apply (path_string_round_trip ["runs"; "detect2"; "weights"; "best.pt"]).
  repeat (apply Forall_cons_2; [repeat split; discriminate|]). apply Forall_nil_2.
Defined.

(** ** The whole run *)

(** X15: the [--epochs] override is written to the module global before
    anything else happens and no stage changes it: after a run, whatever the
    flags and however it ends, [EPOCHS] is the value given on the command
    line, or the value it had when the option is absent. *)
Theorem main_leaves_epochs_overridden C argv w :
  EPOCHS (main C argv w).2 = default (EPOCHS w) (argv_epochs argv).
Proof.
  rewrite main_run. cbv zeta. fold (overridden argv w).
  destruct (negb _ && negb _); [done|].
  unfold mbind, M_bind.
  assert (∃ r w2, (if argv_train argv then train C else mret tt) (overridden argv w)
                  = (r, w2) ∧ EPOCHS w2 = default (EPOCHS w) (argv_epochs argv))
    as (r & w2 & -> & HE).
  { destruct (argv_train argv).
    - destruct (train_events C (overridden argv w)) as (HE & _).
      destruct (train C (overridden argv w)) as [r w2]. by exists r, w2.
    - by exists (inr tt), (overridden argv w). }
  destruct r as [e|[]]; [done|].
  destruct (argv_export argv); [|done].
  match goal with |- context [export_to_coreml C ?wp w2] =>
    destruct (export_to_coreml_events C wp w2) as (HE' & _) end.
  by rewrite HE'.
Qed.



(** X17: an error of the conversion routine is raised unchanged by the
    export, which has not yet looked at the canonical output path: the
    filesystem is the one the model loader left, so an earlier package
    stays in place. *)
Theorem conversion_error_keeps_package C wp w p fs1 e :
  resolve_weights wp (w_fs w) = inr p →
  YOLO C (path_str p) (w_fs w) = inr fs1 →
  yolo_export C (path_str p)
    {| e_format := "coreml"; e_nms := true; e_imgsz := IMGSZ |} fs1 = inl e →
  export_to_coreml C wp w =
    (inl e, World fs1 (environ w) (EPOCHS w) (trace w ++ conversion_events p)).
Proof.
  intros Hp Hload Hconv. unfold export_to_coreml.
  destruct wp as [p'|]; simpl in Hp; simplify_eq; run;
    rewrite ?Hp; run; rewrite Hload; run; rewrite Hconv; run;
    by rewrite <-!(assoc_L (++)).
Qed.

Lemma conversion_error_keeps_package_witness :
  export_to_coreml (mock (λ _ _ _, inl (LibraryError "coremltools"))) None
    (initial_world fs_stale ∅) =
    (inl (LibraryError "coremltools"),
     World fs_stale ∅ 30
       ([] ++ conversion_events ["runs"; "detect2"; "weights"; "best.pt"])).
Proof.
  apply (conversion_error_keeps_package
           (mock (λ _ _ _, inl (LibraryError "coremltools"))) None
           (initial_world fs_stale ∅) ["runs"; "detect2"; "weights"; "best.pt"]
           fs_stale (LibraryError "coremltools")).
  - vm_compute. reflexivity.
  - reflexivity.
  - reflexivity.
Defined.

(** X18: with [--train --export] and no weights option, the export works on
    the checkpoint that the training stage has just reported: the run
    locator is asked again on the filesystem training left and gives the
    same answer. *)
Theorem trained_weights_are_exported C argv w :
  argv_train argv = true →
  argv_export argv = true →
  argv_weights argv = None ∨ argv_weights argv = Some "" →
  (train C (overridden argv w)).1 = inr tt →
  ∃ r t evs,
    trace (train C (overridden argv w)).2 =
      t ++ [Stdout ("✅  Training complete! Weights at " +:+ path_str r)] ∧
    trace (main C argv w).2 = trace (train C (overridden argv w)).2 ++ evs ∧
    Forall (export_only (path_str r)) evs.
Proof.
  intros Htrain Hexport Hweights Hok.
  rewrite main_run. cbv zeta. fold (overridden argv w).
  rewrite Htrain, Hexport. simpl. unfold mbind, M_bind.
  destruct (train C (overridden argv w)) as [res w2] eqn:Hrun. simpl in *. subst res.
  destruct (train_ok_inv C (overridden argv w) w2 Hrun) as (r & t & Hr & Ht & _).
  exists r, t.
  assert (match argv_weights argv with
          | Some s => if decide (s = "") then None else Some (Path_of_string s)
          | None => None
          end = None) as ->.
  { by destruct Hweights as [-> | ->]. }
  destruct (export_to_coreml_resolved C None w2 r Hr) as (_ & evs & Hevs & Hall & _).
  exists evs. done.
Qed.

Lemma trained_weights_are_exported_witness :
  let argv := {| argv_train := true; argv_export := true;
                 argv_weights := None; argv_epochs := None |} in
  let w := initial_world fs_ready ∅ in
  ∃ r t evs,
    trace (train (mock export_adjacent) (overridden argv w)).2 =
      t ++ [Stdout ("✅  Training complete! Weights at " +:+ path_str r)] ∧
    trace (main (mock export_adjacent) argv w).2
      = trace (train (mock export_adjacent) (overridden argv w)).2 ++ evs ∧
    Forall (export_only (path_str r)) evs.
Proof.
  apply (trained_weights_are_exported (mock export_adjacent)
           {| argv_train := true; argv_export := true;
              argv_weights := None; argv_epochs := None |}
           (initial_world fs_ready ∅)).
  - reflexivity.
  - reflexivity.
  - left. reflexivity.
  - vm_compute. reflexivity.
Defined.
